(** * Compile-time evaluation of pure functions (cmd/compile/internal/walk/pure_eval.go)

    A shallow embedding of the four functions of pure_eval.go,
    [allArgsConstant], [generateHelperProgram], [executeHelperProgram] and
    [evaluatePureFunctionAtCompileTime], together with the parts of the Go
    library they call, and the properties the specification states about
    them.

    Go strings are byte strings: they are modelled as [string] (a list of
    8-bit [ascii]).  The compiler process is modelled by explicit state
    passing over a [World]: its environment, the file system, the lines it
    prints and the child processes it starts. *)

From Stdlib Require Import ZArith QArith DecimalString DecimalZ DecimalPos Ascii Lia.
From stdpp Require Import gmap strings list fin_maps.

Local Open Scope Z_scope.

(** ** The newline, the tab and the double quote, by their codes *)

Definition nl : string := String "010" EmptyString.
Definition tab : string := String "009" EmptyString.
Definition dquote : string := String "034" EmptyString.

(** ** go/constant *)

Module constant.

(** Modelled from the spec: package go/constant is not under src/; the
    spec's ConstantArgument is a tagged union over string, integer,
    floating-point and boolean literals.  [constant.Kind] has these four
    kinds, the kind of complex constants and the unknown kind. *)
Inductive Kind := Unknown | Bool | String | Int | Float | Complex.

#[global] Instance Kind_eq_dec : EqDecision Kind.
Proof. solve_decision. Defined.

(** [constant.Value].  [int64Val] and [intVal] both have kind [Int] and are
    one constructor over [Z]; [ratVal] and [floatVal] both have kind
    [Float] and are one constructor over [Q]. *)
Inductive Value :=
| unknownVal
| boolVal (b : bool)
| stringVal (s : string)
| intVal (z : Z)
| floatVal (q : Q)
| complexVal (re im : Q).

Definition Value_Kind (v : Value) : Kind :=
  match v with
  | unknownVal => Unknown
  | boolVal _ => Bool
  | stringVal _ => String
  | intVal _ => Int
  | floatVal _ => Float
  | complexVal _ _ => Complex
  end.

Definition MakeString (s : string) : Value := stringVal s.

(** [String()] of a value of kind [Int]: [strconv.FormatInt(x, 10)] for an
    [int64Val], [x.val.String()] for a big [intVal]; both are the decimal
    digits, with a leading minus sign for a negative number. *)
Definition intVal_String (z : Z) : string :=
  NilZero.string_of_int (Z.to_int z).

(** Reading a decimal integer literal back. *)
Definition parseInt (s : string) : option Z :=
  match NilZero.int_of_string s with
  | Some d => Some (Z.of_int d)
  | None => None
  end.

End constant.

(** ** cmd/compile/internal/types *)

Module types.

(** The kinds of [types.Type] ([types.Kind]). *)
Inductive Kind :=
| TINT8 | TUINT8 | TINT16 | TUINT16 | TINT32 | TUINT32 | TINT64 | TUINT64
| TINT | TUINT | TUINTPTR
| TCOMPLEX64 | TCOMPLEX128
| TFLOAT32 | TFLOAT64
| TBOOL
| TPTR | TFUNC | TSLICE | TARRAY | TSTRUCT | TCHAN | TMAP | TINTER
| TSTRING | TUNSAFEPTR
| TIDEAL.

#[global] Instance Kind_eq_dec : EqDecision Kind.
Proof. solve_decision. Defined.

(** Modelled from the spec: the declaration of [types.Type] is not under
    src/.  A type is identified here by its kind ([Types k] stands for
    [types.Types[k]] and for every named or composite type of that
    kind), and the untyped constant types are values of their own, as
    the predicates [IsInteger] and [IsFloat] compare against them. *)
Inductive Type_ :=
| Types (k : Kind)
| UntypedBool | UntypedString
| UntypedInt | UntypedRune | UntypedFloat | UntypedComplex.

#[global] Instance Type_eq_dec : EqDecision Type_.
Proof. solve_decision. Defined.

Definition kind (t : Type_) : Kind :=
  match t with
  | Types k => k
  | UntypedBool => TBOOL
  | UntypedString => TSTRING
  | UntypedInt | UntypedRune | UntypedFloat | UntypedComplex => TIDEAL
  end.

Definition IsString (t : Type_) : bool := bool_decide (kind t = TSTRING).

Definition IsBoolean (t : Type_) : bool := bool_decide (kind t = TBOOL).

Definition IsInteger (t : Type_) : bool :=
  match kind t with
  | TINT8 | TUINT8 | TINT16 | TUINT16 | TINT32 | TUINT32 | TINT64 | TUINT64
  | TINT | TUINT | TUINTPTR => true
  | _ => bool_decide (t = UntypedInt) || bool_decide (t = UntypedRune)
  end.

Definition IsFloat (t : Type_) : bool :=
  bool_decide (kind t = TFLOAT32) || bool_decide (kind t = TFLOAT64)
  || bool_decide (t = UntypedFloat).

(** [types.Field]: a parameter or result of a signature. *)
Record Field := { Field_Sym : string; Field_Type : Type_ }.

End types.

(** ** cmd/compile/internal/ir *)

Module ir.

(** Source positions ([src.XPos]). *)
Definition XPos := Z.

(** Modelled from the spec: package ir is not under src/.  The node
    operations the evaluator meets: a literal, a variable, a call. *)
Inductive Op := OLITERAL | ONAME | OCALLFUNC.

#[global] Instance Op_eq_dec : EqDecision Op.
Proof. solve_decision. Defined.

(** [ir.Func]: the symbol ([Sym().Pkg.Path], [Sym().Name]), the [Pure]
    bit of [Pragma], and the signature. *)
Record Func := {
  Sym_Pkg_Path : string;
  Sym_Name : string;
  Pragma_Pure : bool;
  Params : list types.Field;
  Results : list types.Field
}.

(** [ir.Node]: a literal ([BasicLit]), a variable ([Name]) or a call of a
    function with its argument nodes ([CallExpr]); each has a position and
    a type-checked flag. *)
#[warnings="-register-all"] Inductive Node :=
| BasicLit (pos : XPos) (typ : types.Type_) (typecheck : Z)
           (val : constant.Value)
| Name (pos : XPos) (typ : types.Type_) (typecheck : Z) (sym : string)
| CallExpr (pos : XPos) (typecheck : Z) (fn : Func) (args : list Node).

Definition Node_Op (n : Node) : Op :=
  match n with
  | BasicLit _ _ _ _ => OLITERAL
  | Name _ _ _ _ => ONAME
  | CallExpr _ _ _ _ => OCALLFUNC
  end.

(** [n.Val()].  A literal carries its constant; a variable has none and
    the method returns the unknown value; on a call the method does not
    return ([None] stands for its panic). *)
Definition Node_Val (n : Node) : option constant.Value :=
  match n with
  | BasicLit _ _ _ v => Some v
  | Name _ _ _ _ => Some constant.unknownVal
  | CallExpr _ _ _ _ => None
  end.

Definition Node_Pos (n : Node) : XPos :=
  match n with
  | BasicLit p _ _ _ | Name p _ _ _ | CallExpr p _ _ _ => p
  end.

(** [n.Type()]; a call has the type of its function's single result. *)
Definition Node_Type (n : Node) : option types.Type_ :=
  match n with
  | BasicLit _ t _ _ => Some t
  | Name _ t _ _ => Some t
  | CallExpr _ _ fn _ =>
      match Results fn with
      | [r] => Some (types.Field_Type r)
      | _ => None
      end
  end.

Definition Node_Typecheck (n : Node) : Z :=
  match n with
  | BasicLit _ _ tc _ | Name _ _ tc _ | CallExpr _ tc _ _ => tc
  end.

(** [ir.NewString(pos, s)]: an untyped string literal. *)
Definition NewString (pos : XPos) (s : string) : Node :=
  BasicLit pos types.UntypedString 1 (constant.MakeString s).

Definition SetType (n : Node) (t : types.Type_) : Node :=
  match n with
  | BasicLit p _ tc v => BasicLit p t tc v
  | Name p _ tc s => Name p t tc s
  | CallExpr p tc f a => CallExpr p tc f a
  end.

Definition SetTypecheck (n : Node) (x : Z) : Node :=
  match n with
  | BasicLit p t _ v => BasicLit p t x v
  | Name p t _ s => Name p t x s
  | CallExpr p _ f a => CallExpr p x f a
  end.

End ir.


(** ** Bytes and runes *)

(** A byte of a Go string as a number, and back ([byte(r)] keeps the low
    eight bits). *)
Definition byte_of (c : ascii) : Z := Z.of_N (N_of_ascii c).

Definition chr (z : Z) : ascii := ascii_of_N (Z.to_N (z mod 256)).

Definition str1 (z : Z) : string := String (chr z) EmptyString.

(** ** unicode/utf8 *)

Module utf8.

(** Modelled from the spec: package unicode/utf8 is not under src/; the
    definitions follow the UTF-8 encoding.  A byte below [RuneSelf] is a
    character of its own. *)
Definition RuneSelf : Z := 0x80.
Definition RuneError : Z := 0xFFFD.
Definition MaxRune : Z := 0x10FFFF.
Definition surrogateMin : Z := 0xD800.
Definition surrogateMax : Z := 0xDFFF.

Definition maskx : Z := 0x3F.
Definition mask2 : Z := 0x1F.
Definition mask3 : Z := 0x0F.
Definition mask4 : Z := 0x07.

Definition between (lo x hi : Z) : bool := (lo <=? x) && (x <=? hi).

(** The range the second byte of a sequence must lie in, by its first
    byte (the [acceptRanges] table). *)
Definition acceptRange (b0 : Z) : Z * Z :=
  if b0 =? 0xE0 then (0xA0, 0xBF)
  else if b0 =? 0xED then (0x80, 0x9F)
  else if b0 =? 0xF0 then (0x90, 0xBF)
  else if b0 =? 0xF4 then (0x80, 0x8F)
  else (0x80, 0xBF).

(** [utf8.DecodeRuneInString]: the first rune of [s] and its width in
    bytes; an invalid or truncated sequence is [(RuneError, 1)], the empty
    string [(RuneError, 0)]. *)
Definition DecodeRuneInString (s : string) : Z * nat :=
  match s with
  | EmptyString => (RuneError, 0%nat)
  | String c0 s1 =>
      let s0 := byte_of c0 in
      if s0 <? RuneSelf then (s0, 1%nat)
      else if negb (between 0xC2 s0 0xF4) then (RuneError, 1%nat)
      else
        let '(lo, hi) := acceptRange s0 in
        match s1 with
        | EmptyString => (RuneError, 1%nat)
        | String c1 s2 =>
            let b1 := byte_of c1 in
            if negb (between lo b1 hi) then (RuneError, 1%nat)
            else if s0 <=? 0xDF then
              (Z.lor (Z.shiftl (Z.land s0 mask2) 6) (Z.land b1 maskx), 2%nat)
            else
              match s2 with
              | EmptyString => (RuneError, 1%nat)
              | String c2 s3 =>
                  let b2 := byte_of c2 in
                  if negb (between 0x80 b2 0xBF) then (RuneError, 1%nat)
                  else if s0 <=? 0xEF then
                    (Z.lor (Z.lor (Z.shiftl (Z.land s0 mask3) 12)
                                  (Z.shiftl (Z.land b1 maskx) 6))
                           (Z.land b2 maskx), 3%nat)
                  else
                    match s3 with
                    | EmptyString => (RuneError, 1%nat)
                    | String c3 _ =>
                        let b3 := byte_of c3 in
                        if negb (between 0x80 b3 0xBF) then (RuneError, 1%nat)
                        else
                          (Z.lor (Z.lor (Z.lor (Z.shiftl (Z.land s0 mask4) 18)
                                               (Z.shiftl (Z.land b1 maskx) 12))
                                        (Z.shiftl (Z.land b2 maskx) 6))
                                 (Z.land b3 maskx), 4%nat)
                    end
              end
        end
  end.

(** [utf8.ValidRune] *)
Definition ValidRune (r : Z) : bool :=
  ((0 <=? r) && (r <? surrogateMin)) || ((surrogateMax <? r) && (r <=? MaxRune)).

(** [utf8.AppendRune] onto the empty buffer: the UTF-8 encoding of [r]; a
    rune out of range or a surrogate half is encoded as [RuneError]. *)
Definition EncodeRune (r : Z) : string :=
  if (0 <=? r) && (r <=? 0x7F) then str1 r
  else if (0 <=? r) && (r <=? 0x7FF) then
    str1 (Z.lor 0xC0 (Z.shiftr r 6)) +:+
    str1 (Z.lor 0x80 (Z.land r maskx))
  else if negb (ValidRune r) then
    str1 0xEF +:+ str1 0xBF +:+ str1 0xBD
  else if r <=? 0xFFFF then
    str1 (Z.lor 0xE0 (Z.shiftr r 12)) +:+
    str1 (Z.lor 0x80 (Z.land (Z.shiftr r 6) maskx)) +:+
    str1 (Z.lor 0x80 (Z.land r maskx))
  else
    str1 (Z.lor 0xF0 (Z.shiftr r 18)) +:+
    str1 (Z.lor 0x80 (Z.land (Z.shiftr r 12) maskx)) +:+
    str1 (Z.lor 0x80 (Z.land (Z.shiftr r 6) maskx)) +:+
    str1 (Z.lor 0x80 (Z.land r maskx)).

End utf8.

(** ** strconv: quoting and unquoting of string literals *)

Module strconv.

Import utf8.

(** Modelled from the spec: [fmt.Sprintf] with the verb [%q] calls
    [strconv.Quote], and package strconv is not under src/.  The spec says
    that strings are quoted and escaped; the definitions of this module
    follow Go's rules for an interpreted string literal: a double quote
    and a backslash are backslashed, a printable rune stands for itself,
    the control characters with a name use it, and every other rune or
    stray byte is a hexadecimal escape.  The digits of those escapes: *)
Definition lowerhex : string := "0123456789abcdef".

(** [lowerhex[n]] *)
Definition hexDigit (n : Z) : string :=
  match String.get (Z.to_nat n) lowerhex with
  | Some c => String c EmptyString
  | None => EmptyString
  end.

(** The two hexadecimal digits of a byte. *)
Definition hex2 (b : Z) : string :=
  hexDigit (Z.shiftr b 4) +:+ hexDigit (Z.land b 0xF).

(** The digits [lowerhex[r>>s & 0xF]] for [s] from [4*(n-1)] down to 0. *)
Fixpoint hexN (n : nat) (r : Z) : string :=
  match n with
  | O => EmptyString
  | S k => hexDigit (Z.land (Z.shiftr r (4 * Z.of_nat k)) 0xF) +:+ hexN k r
  end.

Section WithTables.

(** The Unicode tables of [strconv.IsPrint] for the runes above Latin-1. *)
Variable isPrintTable : Z -> bool.

(** [strconv.IsPrint] *)
Definition IsPrint (r : Z) : bool :=
  if r <=? 0xFF then
    if (0x20 <=? r) && (r <=? 0x7E) then true
    else if (0xA1 <=? r) && (r <=? 0xFF) then negb (r =? 0xAD)
    else false
  else isPrintTable r.

(** [appendEscapedRune] for the double quote, with [ASCIIonly] and
    [graphicOnly] both false. *)
Definition appendEscapedRune (r : Z) : string :=
  if (r =? 0x22) || (r =? 0x5C) then "\" +:+ str1 r
  else if IsPrint r then EncodeRune r
  else if r =? 7 then "\a"
  else if r =? 8 then "\b"
  else if r =? 12 then "\f"
  else if r =? 10 then "\n"
  else if r =? 13 then "\r"
  else if r =? 9 then "\t"
  else if r =? 11 then "\v"
  else if (r <? 0x20) || (r =? 0x7F) then "\x" +:+ hex2 (byte_of (chr r))
  else if negb (ValidRune r) then "\u" +:+ hexN 4 0xFFFD
  else if r <? 0x10000 then "\u" +:+ hexN 4 r
  else "\U" +:+ hexN 8 r.

(** The loop of [appendQuotedWith]: one rune of [s] at a time, a byte that
    does not start a valid sequence as a [\x] escape. *)
Fixpoint quoteRunes (s : string) : string :=
  match s with
  | EmptyString => EmptyString
  | String c0 s1 =>
      let '(r, width) :=
        if byte_of c0 <? RuneSelf then (byte_of c0, 1%nat)
        else DecodeRuneInString s in
      (if Nat.eqb width 1 && (r =? RuneError)
       then "\x" +:+ hex2 (byte_of c0)
       else appendEscapedRune r) +:+
      match width, s1 with
      | 2%nat, String _ s2 => quoteRunes s2
      | 3%nat, String _ (String _ s3) => quoteRunes s3
      | 4%nat, String _ (String _ (String _ s4)) => quoteRunes s4
      | _, _ => quoteRunes s1
      end
  end.

(** [strconv.Quote] *)
Definition Quote (s : string) : string :=
  dquote +:+ quoteRunes s +:+ dquote.

End WithTables.

(** [unhex] *)
Definition unhex (c : ascii) : option Z :=
  let b := byte_of c in
  if (0x30 <=? b) && (b <=? 0x39) then Some (b - 0x30)
  else if (0x61 <=? b) && (b <=? 0x66) then Some (b - 0x61 + 10)
  else if (0x41 <=? b) && (b <=? 0x46) then Some (b - 0x41 + 10)
  else None.

(** The loop [v = v<<4 | x] over [n] hexadecimal digits. *)
Fixpoint readHex (n : nat) (v : Z) (s : string) : option (Z * string) :=
  match n with
  | O => Some (v, s)
  | S k =>
      match s with
      | EmptyString => None
      | String c rest =>
          match unhex c with
          | Some x => readHex k (Z.lor (Z.shiftl v 4) x) rest
          | None => None
          end
      end
  end.

(** The two further octal digits [v = v<<3 | x] of an octal escape. *)
Fixpoint readOctal (n : nat) (v : Z) (s : string) : option (Z * string) :=
  match n with
  | O => Some (v, s)
  | S k =>
      match s with
      | EmptyString => None
      | String c rest =>
          let x := byte_of c - 0x30 in
          if (x <? 0) || (7 <? x) then None
          else readOctal k (Z.lor (Z.shiftl v 3) x) rest
      end
  end.

(** [strconv.UnquoteChar]: the value of the first character or escape
    sequence of [s], whether it is to be written as a rune, and the rest;
    [None] is [ErrSyntax]. *)
Definition UnquoteChar (s : string) (quote : ascii)
  : option (Z * bool * string) :=
  match s with
  | EmptyString => None
  | String c s1 =>
      if bool_decide (c = quote) then None
      else if RuneSelf <=? byte_of c then
        let '(r, size) := DecodeRuneInString s in
        Some (r, true, String.substring size (String.length s) s)
      else if negb (bool_decide (c = "\"%char)) then Some (byte_of c, false, s1)
      else
        match s1 with
        | EmptyString => None
        | String e s2 =>
            let b := byte_of e in
            if b =? 0x61 then Some (7, false, s2)
            else if b =? 0x62 then Some (8, false, s2)
            else if b =? 0x66 then Some (12, false, s2)
            else if b =? 0x6E then Some (10, false, s2)
            else if b =? 0x72 then Some (13, false, s2)
            else if b =? 0x74 then Some (9, false, s2)
            else if b =? 0x76 then Some (11, false, s2)
            else if (b =? 0x78) || (b =? 0x75) || (b =? 0x55) then
              let n := if b =? 0x78 then 2%nat
                       else if b =? 0x75 then 4%nat else 8%nat in
              match readHex n 0 s2 with
              | None => None
              | Some (v, rest) =>
                  if b =? 0x78 then Some (v, false, rest)
                  else if negb (ValidRune v) then None
                  else Some (v, true, rest)
              end
            else if (0x30 <=? b) && (b <=? 0x37) then
              match readOctal 2 (b - 0x30) s2 with
              | None => None
              | Some (v, rest) =>
                  if 255 <? v then None else Some (v, false, rest)
              end
            else if b =? 0x5C then Some (0x5C, false, s2)
            else if (b =? 0x27) || (b =? 0x22) then
              if negb (bool_decide (e = quote)) then None
              else Some (b, false, s2)
            else None
        end
  end.

(** The loop of [unquote] for a double-quoted literal, after its opening
    quote: it appends the characters to [buf] until the closing quote,
    which must end the input.  [fuel] bounds the number of characters; the
    length of the input is enough. *)
Fixpoint unquoteLoop (fuel : nat) (input buf : string) : option string :=
  match fuel with
  | O => None
  | S fuel' =>
      match input with
      | EmptyString => None
      | String c rest =>
          if bool_decide (c = "034"%char) then
            if bool_decide (rest = EmptyString) then Some buf else None
          else
            match UnquoteChar input "034"%char with
            | None => None
            | Some (r, multibyte, rem) =>
                if bool_decide (c = "010"%char) then None
                else
                  unquoteLoop fuel' rem
                    (buf +:+ (if (r <? RuneSelf) || negb multibyte
                              then str1 r else EncodeRune r))
            end
      end
  end.

(** Modelled from the spec: [strconv.Unquote] is not under src/; it is the
    parsing of a rendered string literal the spec speaks of.  Of the
    literals it reads, the double-quoted ones are modelled. *)
Definition Unquote (s : string) : option string :=
  match s with
  | String q rest =>
      if bool_decide (q = "034"%char)
      then unquoteLoop (String.length rest) rest EmptyString
      else None
  | EmptyString => None
  end.

End strconv.

(** ** fmt and strings *)

Module fmt.

(** Modelled from the spec: package fmt is not under src/; booleans render
    as their literal keywords.  [fmt.Sprintf] with the verb [%t]: *)
Definition Sprintf_t (b : bool) : string := if b then "true" else "false".

End fmt.

(** Modelled from the spec: package strings is not under src/.
    [strings.Join]: the elements with the separator between them. *)
Fixpoint strings_Join (elems : list string) (sep : string) : string :=
  match elems with
  | [] => EmptyString
  | [e] => e
  | e :: rest => e +:+ sep +:+ strings_Join rest sep
  end.

(** The index of the first byte [c] of [s] ([strings.IndexByte]); [None]
    is the result -1. *)
Fixpoint indexByte (c : ascii) (s : string) : option nat :=
  match s with
  | EmptyString => None
  | String d rest =>
      if bool_decide (d = c) then Some O
      else match indexByte c rest with
           | Some i => Some (S i)
           | None => None
           end
  end.

(** ** path/filepath, on a system whose separator is the slash *)

Module filepath.

Definition isSlash (c : ascii) : bool := bool_decide (c = "/"%char).

(** The loop of [Base] that strips the trailing slashes. *)
Fixpoint stripTrailingSlashes (path : string) : string :=
  match path with
  | EmptyString => EmptyString
  | String c rest =>
      match stripTrailingSlashes rest with
      | EmptyString => if isSlash c then EmptyString else String c EmptyString
      | rest' => String c rest'
      end
  end.

(** What follows the last slash of [path], [acc] being what follows the
    last slash met so far. *)
Fixpoint afterLastSlash (path acc : string) : string :=
  match path with
  | EmptyString => acc
  | String c rest =>
      if isSlash c then afterLastSlash rest EmptyString
      else afterLastSlash rest (acc +:+ String c EmptyString)
  end.

(** Modelled from the spec: package path/filepath is not under src/.
    [filepath.Base]: the last element of a path, without its trailing
    slashes; a dot for the empty path, a slash for a path of slashes. *)
Definition Base (path : string) : string :=
  if bool_decide (path = EmptyString) then "."
  else
    let path := stripTrailingSlashes path in
    let path := afterLastSlash path EmptyString in
    if bool_decide (path = EmptyString) then "/" else path.

(** [filepath.Join] of path elements: the elements that are not empty,
    separated by slashes.  The lexical cleaning [Join] ends with ([Clean])
    is left out: the elements are taken to be clean paths already. *)
Definition Join (elem : list string) : string :=
  strings_Join (filter (fun e => e <> EmptyString) elem) "/".

End filepath.

(** ** The compiler process and its surroundings *)

(** An entry of the file system. *)
Inductive File := Dir | Regular (data : string).

(** [exec.Cmd]: the program, its argument vector and its environment. *)
Record Cmd := { Cmd_Path : string; Cmd_Args : list string; Cmd_Env : list string }.

(** How a child process ended: it could not be started, or it exited with
    a status, having written to its standard output and standard error. *)
Inductive Outcome :=
| StartFailed (msg : string)
| Exited (code : Z) (out err : string).

(** What the evaluator takes from outside: the build configuration, the
    flags, the library tables that are not modelled, and the operating
    system's part in creating a directory, writing a file and running a
    program. *)
Record Host := {
  (** [buildcfg.GOROOT] *)
  GOROOT : string;
  (** [base.Flag.LowerM], the count of [-m] flags *)
  LowerM : Z;
  (** [String()] of a constant of kind [Float] *)
  floatVal_String : Q -> string;
  (** the tables of [strconv.IsPrint] *)
  isPrintTable : Z -> bool;
  (** the random part of the name [os.MkdirTemp] picks at a state of the
      random source, [None] when the directory cannot be made *)
  tempRandom : nat -> gmap string File -> option string;
  (** whether [os.WriteFile] can write the named file *)
  writable : gmap string File -> string -> bool;
  (** the toolchain: what running a command does to the file system and
      how it ends *)
  runChild : Cmd -> gmap string File -> Outcome * gmap string File
}.

(** The state of the compiler process. *)
Record World := {
  (** the environment, as [os.Environ()] returns it *)
  environ : list string;
  (** the file system *)
  files : gmap string File;
  (** [base.Pos], the position the walk is at *)
  base_Pos : ir.XPos;
  (** what [fmt.Printf] has written to standard output, one entry a call *)
  printed : list string;
  (** the child processes started, in order, and how each ended *)
  spawned : list (Cmd * Outcome);
  (** the state of the random source [os.MkdirTemp] draws its names from:
      the number of names drawn so far *)
  rand : nat
}.

Definition set_files (w : World) (fs : gmap string File) : World :=
  {| environ := environ w; files := fs; base_Pos := base_Pos w;
     printed := printed w; spawned := spawned w; rand := rand w |}.

(** [fmt.Printf] of an already formatted message. *)
Definition Printf (msg : string) (w : World) : World :=
  {| environ := environ w; files := files w; base_Pos := base_Pos w;
     printed := printed w ++ [msg]; spawned := spawned w; rand := rand w |}.

(** One more name drawn from the random source. *)
Definition drawn (w : World) : World :=
  {| environ := environ w; files := files w; base_Pos := base_Pos w;
     printed := printed w; spawned := spawned w; rand := S (rand w) |}.

(** ** os *)

Module os.

(** The value of [key] in a list of entries [key=value]: the text after
    the first equals sign of the first entry whose text before it is
    [key]. *)
Fixpoint lookupEnv (envs : list string) (key : string) : option string :=
  match envs with
  | [] => None
  | s :: rest =>
      match indexByte "="%char s with
      | Some j =>
          if bool_decide (String.substring 0 j s = key)
          then Some (String.substring (S j) (String.length s) s)
          else lookupEnv rest key
      | None => lookupEnv rest key
      end
  end.

(** Modelled from the spec: package os is not under src/.  [os.Getenv]:
    the value of the variable in the environment of the process, empty
    when it is not set. *)
Definition Getenv (w : World) (key : string) : string :=
  if bool_decide (key = EmptyString) then EmptyString
  else default EmptyString (lookupEnv (environ w) key).

(** [os.Environ] *)
Definition Environ (w : World) : list string := environ w.

(** [os.TempDir] *)
Definition TempDir (w : World) : string :=
  let dir := Getenv w "TMPDIR" in
  if bool_decide (dir = EmptyString) then "/tmp" else dir.

(** The pattern of [MkdirTemp] split at its last star. *)
Fixpoint splitLastStar (pattern : string) : option (string * string) :=
  match pattern with
  | EmptyString => None
  | String c rest =>
      match splitLastStar rest with
      | Some (a, b) => Some (String c a, b)
      | None => if bool_decide (c = "*"%char) then Some (EmptyString, rest)
                else None
      end
  end.

Definition prefixAndSuffix (pattern : string) : string * string :=
  match splitLastStar pattern with
  | Some ab => ab
  | None => (pattern, EmptyString)
  end.

(** Whether a path ends with a slash. *)
Fixpoint endsWithSlash (s : string) : bool :=
  match s with
  | EmptyString => false
  | String c EmptyString => bool_decide (c = "/"%char)
  | String _ rest => endsWithSlash rest
  end.

(** [joinPath] of package os *)
Definition joinPath (dir name : string) : string :=
  if endsWithSlash dir then dir +:+ name else dir +:+ "/" +:+ name.

(** Modelled from the spec: [os.MkdirTemp] is not under src/; it gives the
    uniquely named scratch directory of the spec: a new directory in [dir]
    (the default temporary directory when [dir] is empty) whose name is the
    pattern with its last star replaced by a random string.  Each call
    draws a name from the random source, which moves on, so that a later
    call on the same file system may pick another name.  [None] is an
    error; a name that is taken counts as one (the retries are not
    modelled). *)
Definition MkdirTemp (h : Host) (dir pattern : string) (w : World)
  : option string * World :=
  let dir := if bool_decide (dir = EmptyString) then TempDir w else dir in
  let '(prefix, suffix) := prefixAndSuffix pattern in
  match tempRandom h (rand w) (files w) with
  | None => (None, drawn w)
  | Some r =>
      let name := joinPath dir (prefix +:+ r +:+ suffix) in
      match files w !! name with
      | Some _ => (None, drawn w)
      | None => (Some name, set_files (drawn w) (<[name := Dir]> (files w)))
      end
  end.

(** Modelled from the spec: [os.WriteFile] is not under src/; it writes
    the program text to a file.  [false] is an error. *)
Definition WriteFile (h : Host) (name data : string) (w : World)
  : bool * World :=
  if writable h (files w) name
  then (true, set_files w (<[name := Regular data]> (files w)))
  else (false, w).

(** [os.Stat]; [false] is an error. *)
Definition Stat (name : string) (w : World) : bool :=
  bool_decide (is_Some (files w !! name)).

(** Whether [p] is [path] or lies below it. *)
Definition within (path p : string) : bool :=
  bool_decide (p = path) || String.prefix (path +:+ "/") p.

(** Modelled from the spec: [os.RemoveAll] is not under src/; it destroys
    the scratch directory with all its contents: [path] and everything
    below it are removed.  The error it returns is not modelled; the code
    does not look at it. *)
Definition RemoveAll (path : string) (w : World) : World :=
  set_files w (filter (fun kv => within path kv.1 = false) (files w)).

End os.

(** ** os/exec *)

Module exec.

(** The length of the key of an entry in [dedupEnv]: the index of its
    first equals sign, or of the next one when the entry starts with one;
    [None] when there is none. *)
Definition keyLen (kv : string) : option nat :=
  match indexByte "="%char kv with
  | None => None
  | Some O =>
      match kv with
      | String _ rest =>
          match indexByte "="%char rest with
          | Some j => Some (S j)
          | None => Some O
          end
      | EmptyString => Some O
      end
  | Some i => Some i
  end.

(** The loop of [dedupEnv], from the last entry to the first: an entry
    whose key was seen is dropped; the result is in reverse order. *)
Fixpoint dedupFromLast (rev_env : list string) (saw : list string)
  : list string :=
  match rev_env with
  | [] => []
  | kv :: rest =>
      match keyLen kv with
      | None =>
          if bool_decide (kv <> EmptyString)
          then kv :: dedupFromLast rest saw
          else dedupFromLast rest saw
      | Some i =>
          let k := String.substring 0 i kv in
          if bool_decide (k ∈ saw) then dedupFromLast rest saw
          else kv :: dedupFromLast rest (k :: saw)
      end
  end.

(** Modelled from the spec: package os/exec is not under src/.
    [dedupEnv]: of the entries of [cmd.Env] with the same key only the
    last is kept, so that a variable set for the child overrides the
    inherited one. *)
Definition dedupEnv (env : list string) : list string :=
  rev (dedupFromLast (rev env) []).

(** [exec.Command] *)
Definition Command (name : string) (arg : list string) : Cmd :=
  {| Cmd_Path := name; Cmd_Args := name :: arg; Cmd_Env := [] |}.

Definition set_Env (c : Cmd) (env : list string) : Cmd :=
  {| Cmd_Path := Cmd_Path c; Cmd_Args := Cmd_Args c; Cmd_Env := env |}.

(** The environment the child process starts with. *)
Definition childEnviron (c : Cmd) : list string := dedupEnv (Cmd_Env c).

(** Modelled from the spec: [cmd.Run] is not under src/.  With standard
    output and standard error captured in buffers, it gives the error
    ([None] when the child ran and exited with status 0; a failure to start
    and an exit status other than 0 are errors), the two buffers and the
    world after. *)
Definition Run (h : Host) (c : Cmd) (w : World)
  : option string * string * string * World :=
  let '(o, fs) := runChild h (set_Env c (childEnviron c)) (files w) in
  let w' := {| environ := environ w; files := fs; base_Pos := base_Pos w;
               printed := printed w; spawned := spawned w ++ [(c, o)];
               rand := rand w |} in
  match o with
  | StartFailed msg => (Some msg, EmptyString, EmptyString, w')
  | Exited code out err =>
      if code =? 0 then (None, out, err, w')
      else (Some ("exit status " +:+ constant.intVal_String code), out, err, w')
  end.

End exec.

(** ** cmd/compile/internal/walk: pure_eval.go *)

(** The result of a function that may panic. *)
Inductive Result (A : Type) :=
| Ret (a : A)
| Panic.

Arguments Ret {A} a.
Arguments Panic {A}.

Module walk.

Import constant types ir.

(** *** allArgsConstant *)

(** The body of the loop [for i, arg := range args] for one argument and
    its parameter [paramTypes[i]]; [true] lets the loop go on, [false] is
    one of its [return false]. *)
Definition argConstant (arg : Node) (param : Field) : bool :=
  (* Check if argument is a constant *)
  if negb (bool_decide (Node_Op arg = OLITERAL)) then false else
  match Node_Val arg with
  | None => false (* not reached: a literal has a value *)
  | Some val =>
      let kind := Value_Kind val in
      (* Only support basic constant types *)
      match kind with
      | String | Int | Float | Bool =>
          (* Verify type compatibility *)
          if IsString (Field_Type param) && negb (bool_decide (kind = String))
          then false
          else if IsInteger (Field_Type param) && negb (bool_decide (kind = Int))
          then false
          else if IsFloat (Field_Type param) && negb (bool_decide (kind = Float))
          then false
          else if IsBoolean (Field_Type param) && negb (bool_decide (kind = Bool))
          then false
          else true
      | _ => false
      end
  end.

(** The loop from index [i] on; [paramTypes[i]] is a list lookup, and an
    index out of range (which the length check excludes) ends it. *)
Fixpoint allArgsConstant_from (i : nat) (args : list Node)
         (paramTypes : list Field) : bool :=
  match args with
  | [] => true
  | arg :: rest =>
      match paramTypes !! i with
      | None => false
      | Some param =>
          if argConstant arg param
          then allArgsConstant_from (S i) rest paramTypes
          else false
      end
  end.

Definition allArgsConstant (args : list Node) (paramTypes : list Field)
  : bool :=
  if negb (bool_decide (length args = length paramTypes)) then false
  else allArgsConstant_from 0 args paramTypes.

(** *** generateHelperProgram, executeHelperProgram and the coordinator *)

(** The name of the environment variable that guards against recursion. *)
Definition guardName : string := "GO_PURE_EVAL_HELPER".

(** [ir.PkgFuncName] *)
Definition PkgFuncName (fn : Func) : string :=
  Sym_Pkg_Path fn +:+ "." +:+ Sym_Name fn.

Section WithHost.

Variable h : Host.

(** The switch of [generateHelperProgram] on the kind of [val]: the
    literal appended to [argExprs], [None] in the default case. *)
Definition argExpr (val : Value) : option string :=
  match val with
  | stringVal s => Some (strconv.Quote (isPrintTable h) s)
  | intVal z => Some (intVal_String z)
  | floatVal q => Some (floatVal_String h q)
  | boolVal b => Some (fmt.Sprintf_t b)
  | _ => None
  end.

(** The loop of [generateHelperProgram] over the arguments, [argExprs]
    being the literals rendered so far.  [Ret None] is the return of the
    empty string in the default case; [Panic] is [arg.Val()] on a node that
    has no value. *)
Fixpoint renderArgs (args : list Node) (argExprs : list string)
  : Result (option (list string)) :=
  match args with
  | [] => Ret (Some argExprs)
  | arg :: rest =>
      match Node_Val arg with
      | None => Panic
      | Some val =>
          match argExpr val with
          | Some e => renderArgs rest (argExprs ++ [e])
          | None => Ret None
          end
      end
  end.

(** The text written to the buffer, for the rendered arguments. *)
Definition programText (pkgPath funcName : string) (argExprs : list string)
  : string :=
  "package main" +:+ nl +:+ nl +:+
  "import " +:+ dquote +:+ pkgPath +:+ dquote +:+ nl +:+
  "import " +:+ dquote +:+ "fmt" +:+ dquote +:+ nl +:+ nl +:+
  "func main() {" +:+ nl +:+
  tab +:+ "result := " +:+ filepath.Base pkgPath +:+ "." +:+ funcName +:+
    "(" +:+ strings_Join argExprs ", " +:+ ")" +:+ nl +:+
  tab +:+ "fmt.Print(result)" +:+ nl +:+
  "}" +:+ nl.

Definition generateHelperProgram (fn : Func) (args : list Node)
  : Result string :=
  let pkgPath := Sym_Pkg_Path fn in
  let funcName := Sym_Name fn in
  match renderArgs args [] with
  | Panic => Panic
  | Ret None => Ret EmptyString
  | Ret (Some argExprs) => Ret (programText pkgPath funcName argExprs)
  end.

(** The program to run: the go binary of GOROOT when GOROOT is known and
    the binary exists, the one on the PATH otherwise. *)
Definition goBinary (w : World) : string :=
  if bool_decide (GOROOT h <> EmptyString) then
    let goBin := filepath.Join [GOROOT h; "bin"; "go"] in
    if os.Stat goBin w then goBin else "go"
  else "go".

(** The environment of the child: the compiler's, the GOROOT when it is
    known, and the recursion guard. *)
Definition helperEnv (w : World) : list string :=
  let env := os.Environ w in
  let env := if bool_decide (GOROOT h <> EmptyString)
             then env ++ ["GOROOT=" +:+ GOROOT h] else env in
  env ++ [guardName +:+ "=1"].

(** [executeHelperProgram] after the scratch directory is made and before
    the deferred [os.RemoveAll] runs. *)
Definition runInDir (tmpDir source : string) (w : World) : string * World :=
  let mainFile := filepath.Join [tmpDir; "main.go"] in
  match os.WriteFile h mainFile source w with
  | (false, w) => (EmptyString, w)
  | (true, w) =>
      let goBin := goBinary w in
      let cmd := exec.Command goBin ["run"; mainFile] in
      let cmd := exec.set_Env cmd (helperEnv w) in
      match exec.Run h cmd w with
      | (Some err, _, stderr, w) =>
          let w := if 1 <? LowerM h
                   then Printf ("helper program error: " +:+ err +:+ nl +:+
                                "stderr: " +:+ stderr +:+ nl) w
                   else w in
          (EmptyString, w)
      | (None, stdout, _, w) => (stdout, w)
      end
  end.

Definition executeHelperProgram (source : string) (w : World)
  : string * World :=
  match os.MkdirTemp h EmptyString "go-pure-eval-*" w with
  | (None, w) => (EmptyString, w)
  | (Some tmpDir, w) =>
      let '(result, w) := runInDir tmpDir source w in
      (* defer os.RemoveAll(tmpDir) *)
      (result, os.RemoveAll tmpDir w)
  end.

(** [fmt.Printf(msg)] when [base.Flag.LowerM > n]. *)
Definition trace (n : Z) (msg : string) (w : World) : World :=
  if n <? LowerM h then Printf msg w else w.

Definition evaluatePureFunctionAtCompileTime (fn : Func) (args : list Node)
           (w : World) : Result (option Node) * World :=
  (* Don't recursively evaluate if we're inside a helper program execution *)
  if bool_decide (os.Getenv w guardName <> EmptyString) then (Ret None, w)
  else
    let w := trace 1 ("attempting compile-time evaluation of " +:+
                      PkgFuncName fn +:+ nl) w in
    match generateHelperProgram fn args with
    | Panic => (Panic, w)
    | Ret programSource =>
        if bool_decide (programSource = EmptyString) then
          (Ret None, trace 1 ("failed to generate helper program" +:+ nl) w)
        else
          let w := trace 1 ("generated helper program:" +:+ nl +:+
                            programSource +:+ nl) w in
          let '(result, w) := executeHelperProgram programSource w in
          if bool_decide (result = EmptyString) then
            (Ret None, trace 1 ("failed to execute helper program" +:+ nl) w)
          else
            let w := trace 0 ("compile-time evaluated " +:+ PkgFuncName fn +:+
                              " to constant " +:+
                              strconv.Quote (isPrintTable h) result +:+ nl) w in
            (* Create a typed string constant *)
            let s := NewString (base_Pos w) result in
            let s := SetType s (Types TSTRING) in
            let s := SetTypecheck s 1 in
            (Ret (Some s), w)
    end.

(** Modelled from the spec: the call site of the evaluator, in [walkCall]
    of walk/expr.go, is not under src/; the implementation summary gives
    it.  A call of a function marked pure whose arguments pass
    [allArgsConstant] is handed to the evaluator; [Some result] replaces
    the call, [None] leaves it as it is. *)
Definition walkCallPure (n : Node) (w : World)
  : Result (option Node) * World :=
  match n with
  | CallExpr _ _ fn args =>
      if Pragma_Pure fn then
        if allArgsConstant args (Params fn) then
          evaluatePureFunctionAtCompileTime fn args w
        else (Ret None, w)
      else (Ret None, w)
  | _ => (Ret None, w)
  end.

End WithHost.

End walk.

(** * The properties *)

(** ** Notions the statements use *)

Section EligibilityNotions.

Import constant types ir.

(** A literal of one of the four supported kinds, [k] being its kind. *)
Definition supportedLiteral (a : Node) (k : constant.Kind) : Prop :=
  Node_Op a = OLITERAL /\
  (exists v, Node_Val a = Some v /\ Value_Kind v = k) /\
  (k = String \/ k = Int \/ k = Float \/ k = Bool).

(** The kind of a literal matches the kind of a declared parameter type
    exactly: the type is of the class of the kind. *)
Definition kindMatches (k : constant.Kind) (t : Type_) : Prop :=
  (k = String /\ IsString t = true) \/ (k = Int /\ IsInteger t = true) \/
  (k = Float /\ IsFloat t = true) \/ (k = Bool /\ IsBoolean t = true).

(** What the compatibility switch asks of a kind: a parameter type of one
    of the four classes takes the kind of its class. *)
Definition kindCompatible (k : constant.Kind) (t : Type_) : Prop :=
  (IsString t = true -> k = String) /\ (IsInteger t = true -> k = Int) /\
  (IsFloat t = true -> k = Float) /\ (IsBoolean t = true -> k = Bool).

(** A parameter type of none of the four classes. *)
Definition unconstrained (t : Type_) : Prop :=
  IsString t = false /\ IsInteger t = false /\
  IsFloat t = false /\ IsBoolean t = false.

(** An argument that is eligible for its parameter in the strict sense: a
    supported literal whose kind matches the parameter's exactly. *)
Definition eligibleExactly (a : Node) (p : Field) : Prop :=
  exists k, supportedLiteral a k /\ kindMatches k (Field_Type p).

(** An argument that [allArgsConstant] lets through. *)
Definition eligibleArg (a : Node) (p : Field) : Prop :=
  exists k, supportedLiteral a k /\ kindCompatible k (Field_Type p).

End EligibilityNotions.

(** ** Concrete data for the examples *)

Module ex.

Import constant types ir.

Definition param (t : Type_) : Field := {| Field_Sym := "x"; Field_Type := t |}.

Definition strLit (s : string) : Node := BasicLit 12 (Types TSTRING) 1 (stringVal s).
Definition intLit (z : Z) : Node := BasicLit 12 (Types TINT) 1 (intVal z).

(** [strings.ToLower], marked pure *)
Definition ToLower : Func :=
  {| Sym_Pkg_Path := "strings"; Sym_Name := "ToLower"; Pragma_Pure := true;
     Params := [param (Types TSTRING)]; Results := [param (Types TSTRING)] |}.

(** [addPure(a int, b int) int], marked pure, of a package [calc] *)
Definition addPure : Func :=
  {| Sym_Pkg_Path := "example.com/calc"; Sym_Name := "AddPure";
     Pragma_Pure := true;
     Params := [param (Types TINT); param (Types TINT)];
     Results := [param (Types TINT)] |}.

(** A pure function with a parameter of interface type. *)
Definition Describe : Func :=
  {| Sym_Pkg_Path := "example.com/calc"; Sym_Name := "Describe";
     Pragma_Pure := true;
     Params := [param (Types TINTER)]; Results := [param (Types TSTRING)] |}.

(** A host whose toolchain leaves a file next to the source file it is
    given, writes [out] and exits with status [code]. *)
Definition host (code : Z) (out : string) : Host :=
  {| GOROOT := "/usr/local/go"; LowerM := 2;
     floatVal_String := fun _ => "0";
     isPrintTable := fun _ => true;
     tempRandom := fun _ _ => Some "2894617";
     writable := fun _ _ => true;
     runChild := fun c fs =>
       (Exited code out EmptyString,
        match Cmd_Args c with
        | [_; _; f] => <[f +:+ ".o" := Regular "obj"]> fs
        | _ => fs
        end) |}.

(** A compiler process outside any helper program. *)
Definition world : World :=
  {| environ := ["PATH=/usr/bin"; "HOME=/root"];
     files := <["/usr/local/go/bin/go" := Regular "go"]> ∅;
     base_Pos := 12; printed := []; spawned := []; rand := 0 |}.

(** A process started by a helper program of [world]. *)
Definition helperWorld : World :=
  {| environ := exec.dedupEnv (walk.helperEnv (host 0 "x") world);
     files := files world; base_Pos := 40; printed := []; spawned := [];
     rand := 0 |}.

Definition scratch : string := "/tmp/go-pure-eval-2894617".

End ex.

(** ** Notions about processes *)

(** An entry of an environment that is not read as a value of [key]. *)
Definition notKey (key kv : string) : Prop :=
  forall j, indexByte "="%char kv = Some j -> String.substring 0 j kv <> key.

(** What [cmd.Run] leaves in the standard output buffer that
    [executeHelperProgram] returns: the output of a child that exited with
    status 0, nothing otherwise. *)
Definition capturedOutput (o : Outcome) : string :=
  match o with
  | Exited code out _ => if code =? 0 then out else EmptyString
  | StartFailed _ => EmptyString
  end.

(** A child that did not start, exited with a status other than 0, or
    wrote nothing to its standard output. *)
Definition failedOutcome (o : Outcome) : Prop :=
  match o with
  | StartFailed _ => True
  | Exited code out _ => code <> 0 \/ out = EmptyString
  end.

(** The attempt of the helper program between the worlds [w] and [w']
    failed: no child was started (no scratch directory, or the source file
    could not be written), or the child that was started failed. *)
Definition helperFailed (w w' : World) : Prop :=
  spawned w' = spawned w \/
  exists c o, spawned w' = spawned w ++ [(c, o)] /\ failedOutcome o.

(** The process [w] runs inside a helper program: its environment is the
    one a child started by [executeHelperProgram] begins with. *)
Definition insideHelper (w : World) : Prop :=
  exists h0 src w0 c o,
    ((c, o) ∈ spawned (snd (walk.executeHelperProgram h0 src w0))) /\
    ((c, o) ∉ spawned w0) /\
    environ w = exec.childEnviron c.

(** The name of the scratch directory an attempt in [w] makes, if it can
    make one. *)
Definition scratchDir (h : Host) (w : World) : option string :=
  fst (os.MkdirTemp h EmptyString "go-pure-eval-*" w).

(** ** Notions about the value of a call *)

(** The value a direct call returns: a string, an integer, a boolean, or
    a value of another type, given by what [fmt.Print] writes for it. *)
Inductive GoValue :=
| GoString (s : string)
| GoInt (z : Z)
| GoBool (b : bool)
| GoOther (text : string).

(** What [fmt.Print(result)] writes. *)
Definition fmt_Print (v : GoValue) : string :=
  match v with
  | GoString s => s
  | GoInt z => constant.intVal_String z
  | GoBool b => fmt.Sprintf_t b
  | GoOther text => text
  end.

(** The constant that equals a value. *)
Definition constantOf (v : GoValue) : option constant.Value :=
  match v with
  | GoString s => Some (constant.stringVal s)
  | GoInt z => Some (constant.intVal z)
  | GoBool b => Some (constant.boolVal b)
  | GoOther _ => None
  end.

(** The toolchain, told to run a file that holds [prog], builds and runs
    it: the child exits with status 0 and has written [out]. *)
Definition toolchainPrints (h : Host) (prog out : string) : Prop :=
  forall c fs bin f,
    Cmd_Args c = [bin; "run"; f] ->
    fs !! f = Some (Regular prog) ->
    exists err fs', runChild h c fs = (Exited 0 out err, fs').

(** The scratch directory can be made and its source file written. *)
Definition workspaceReady (h : Host) (w : World) : Prop :=
  exists d, scratchDir h w = Some d /\
            writable h (<[d := Dir]> (files w))
                     (filepath.Join [d; "main.go"]) = true.

(** The import declarations of a program: the paths of its lines of the
    form import, space, quoted path. *)
Fixpoint linesOf (s cur : string) : list string :=
  match s with
  | EmptyString => [cur]
  | String c rest =>
      if bool_decide (c = "010"%char) then cur :: linesOf rest EmptyString
      else linesOf rest (cur +:+ String c EmptyString)
  end.

Definition importOfLine (l : string) : option string :=
  if String.prefix ("import " +:+ dquote) l then
    let n := String.length l in
    if bool_decide (String.get (n - 1) l = Some "034"%char)
    then Some (String.substring 8 (n - 9) l) else None
  else None.

Definition importsOf (prog : string) : list string :=
  omap importOfLine (linesOf prog EmptyString).

(** ** Notions about the rendering of arguments *)

(** The rendering of an argument node: the literal of its constant. *)
Definition rendersAs (h : Host) (a : ir.Node) (e : string) : Prop :=
  exists v, ir.Node_Val a = Some v /\ walk.argExpr h v = Some e.

(** A literal whose constant is of none of the four supported kinds. *)
Definition unsupportedLiteral (a : ir.Node) : Prop :=
  exists v, ir.Node_Val a = Some v /\
            constant.Value_Kind v <> constant.String /\
            constant.Value_Kind v <> constant.Int /\
            constant.Value_Kind v <> constant.Float /\
            constant.Value_Kind v <> constant.Bool.

Section UnquoteNotions.

Import utf8 strconv.

(** The text [piece] is read by [UnquoteChar] as the bytes [bytes]: it
    starts neither with a double quote nor with a newline, and whatever
    follows it is left over. *)
Definition unquotesTo (piece bytes : string) : Prop :=
  (exists p0 ptail, piece = String p0 ptail /\
                    p0 <> "034"%char /\ p0 <> "010"%char) /\
  forall T, exists r mb,
    UnquoteChar (piece +:+ T) "034"%char = Some (r, mb, T) /\
    (if (r <? RuneSelf) || negb mb then str1 r else EncodeRune r) = bytes.


End UnquoteNotions.

(** * Further code and further properties *)

(** ** The no-op fold of strings.ToLower in walkCall *)

Module tolower.

Import types ir.

(** [ir.IsConst(n, ct)]: a literal whose constant is of kind [ct]. *)
Definition IsConst (n : Node) (ct : constant.Kind) : bool :=
  bool_decide (Node_Op n = OLITERAL) &&
  match Node_Val n with
  | Some v => bool_decide (constant.Value_Kind v = ct)
  | None => false
  end.

(** The loop over the bytes of [s] from the flags [isASCII = true] and
    [hasUpper]: a byte of 0x80 or more clears [isASCII] and breaks out; any
    other byte adds to [hasUpper] whether it is one of A to Z.  The result
    is the pair of flags after the loop. *)
Fixpoint scan (s : string) (hasUpper : bool) : bool * bool :=
  match s with
  | EmptyString => (true, hasUpper)
  | String c rest =>
      if 0x80 <=? byte_of c then (false, hasUpper)
      else scan rest (hasUpper || ((0x41 <=? byte_of c) && (byte_of c <=? 0x5A)))
  end.

(** The detection logic of the fold: a call of [strings.ToLower] with one
    argument that is a string constant, all ASCII and without an upper-case
    letter, is replaced by the argument; [None] leaves the call. *)
Definition foldToLower (n : Node) : option Node :=
  match n with
  | CallExpr _ _ fn args =>
      if bool_decide (Sym_Pkg_Path fn = "strings") &&
         bool_decide (Sym_Name fn = "ToLower")
      then
        match args with
        | [arg] =>
            if IsConst arg constant.String then
              match Node_Val arg with
              | Some (constant.stringVal s) =>
                  let '(isASCII, hasUpper) := scan s false in
                  if isASCII && negb hasUpper then Some arg else None
              | _ => None
              end
            else None
        | _ => None
        end
      else None
  | _ => None
  end.

End tolower.

(** Lower-casing the letters A to Z of a byte string, byte by byte. *)
Definition lowerByte (c : ascii) : ascii :=
  if (0x41 <=? byte_of c) && (byte_of c <=? 0x5A) then chr (byte_of c + 32)
  else c.

Fixpoint lowerASCII (s : string) : string :=
  match s with
  | EmptyString => EmptyString
  | String c rest => String (lowerByte c) (lowerASCII rest)
  end.

(** Every byte of a string satisfies a test. *)
Fixpoint allBytes (f : ascii -> bool) (s : string) : bool :=
  match s with
  | EmptyString => true
  | String c rest => f c && allBytes f rest
  end.

(** A byte of a string that is all ASCII and has no upper-case letter. *)
Definition lowerAsciiByte (c : ascii) : bool :=
  (byte_of c <? 0x80) && negb ((0x41 <=? byte_of c) && (byte_of c <=? 0x5A)).

(** ** The pure functions of testdata/pure_ssa/demo.go *)

(** A value of type [int] of [bits] bits, and the wrap-around of the
    arithmetic on it. *)
Definition inInt (bits z : Z) : Prop := - 2 ^ (bits - 1) <= z < 2 ^ (bits - 1).

Definition wrapInt (bits z : Z) : Z :=
  (z + 2 ^ (bits - 1)) mod 2 ^ bits - 2 ^ (bits - 1).

Module demo.

Section WithIntSize.

(** The size of [int]: 32 or 64 on the targets of the compiler. *)
Variable bits : Z.

Definition add (a b : Z) : Z := wrapInt bits (a + b).

Definition multiply (x y : Z) : Z := wrapInt bits (x * y).

Definition subtract (a b : Z) : Z := wrapInt bits (a - b).

Definition divide (a b : Z) : Z :=
  if b =? 0 then 0 else wrapInt bits (Z.quot a b).

Definition bitwiseAnd (a b : Z) : Z := Z.land a b.

Definition max (a b : Z) : Z := if b <? a then a else b.

End WithIntSize.

End demo.

(** ** Notions of the further properties *)

(** Two worlds with the same environment, files, position and state of the
    random source: they differ at most in what was printed and in the
    children started. *)
Definition sameInputs (w1 w2 : World) : Prop :=
  environ w1 = environ w2 /\ files w1 = files w2 /\
  base_Pos w1 = base_Pos w2 /\ rand w1 = rand w2.

(** The host with another count of -m flags. *)
Definition withLowerM (h : Host) (m : Z) : Host :=
  {| GOROOT := GOROOT h; LowerM := m;
     floatVal_String := floatVal_String h;
     isPrintTable := isPrintTable h;
     tempRandom := tempRandom h;
     writable := writable h;
     runChild := runChild h |}.

(** The line printed at -m for a result that is not nil. *)
Definition successLine (h : Host) (fn : ir.Func) (r : Result (option ir.Node))
  : list string :=
  match r with
  | Ret (Some (ir.BasicLit _ _ _ (constant.stringVal s))) =>
      ["compile-time evaluated " +:+ walk.PkgFuncName fn +:+ " to constant " +:+
       strconv.Quote (isPrintTable h) s +:+ nl]
  | _ => []
  end.

(** A parameter type that the kind [k] of a literal does not fit. *)
Definition kindRejected (k : constant.Kind) (t : types.Type_) : Prop :=
  (types.IsString t = true /\ k <> constant.String) \/
  (types.IsInteger t = true /\ k <> constant.Int) \/
  (types.IsFloat t = true /\ k <> constant.Float) \/
  (types.IsBoolean t = true /\ k <> constant.Bool).

(** A host as [ex.host] with one -m flag, whose toolchain writes [out],
    exits with status 0 and leaves the file system as it is. *)
Definition quietHost (out : string) : Host :=
  {| GOROOT := "/usr/local/go"; LowerM := 1;
     floatVal_String := fun _ => "0";
     isPrintTable := fun _ => true;
     tempRandom := fun _ _ => Some "2894617";
     writable := fun _ _ => true;
     runChild := fun _ fs => (Exited 0 out EmptyString, fs) |}.

(** ** Eligibility: [allArgsConstant] *)

Section Eligibility.

Import constant types ir walk.

Lemma class_disjoint t :
  (IsString t = true ->
   IsInteger t = false /\ IsFloat t = false /\ IsBoolean t = false) /\
  (IsInteger t = true -> IsFloat t = false /\ IsBoolean t = false) /\
  (IsFloat t = true -> IsBoolean t = false).
Proof. destruct t as [[]| | | | | |]; cbv; intuition congruence. Qed.

Lemma kindMatches_compatible k t : kindMatches k t -> kindCompatible k t.
Proof.
  destruct (class_disjoint t) as (Hs & Hi & Hf).
  unfold kindMatches, kindCompatible.
  intros [[-> H]|[[-> H]|[[-> H]|[-> H]]]]; repeat split; intros H'; try done.
  all: try (destruct (Hs H') as (? & ? & ?); congruence).
  all: try (destruct (Hi H') as (? & ?); congruence).
  all: try (specialize (Hf H'); congruence).
  all: try (destruct (Hs H) as (? & ? & ?); congruence).
  all: try (destruct (Hi H) as (? & ?); congruence).
  all: try (specialize (Hf H); congruence).
Qed.

Lemma unconstrained_compatible k t : unconstrained t -> kindCompatible k t.
Proof. intros (Hs & Hi & Hf & Hb). repeat split; congruence. Qed.

Lemma argConstant_true a p : argConstant a p = true <-> eligibleArg a p.
Proof.
  unfold argConstant, eligibleArg, supportedLiteral, kindCompatible.
  destruct a as [pos typ tc v| |]; simpl.
  2,3: split; [done | intros (k & (H & _) & _); done].
  split.
  - intros H. exists (Value_Kind v).
    destruct v; simpl in *; try done;
      destruct (IsString _), (IsInteger _), (IsFloat _), (IsBoolean _);
      simpl in *; try done; naive_solver.
  - intros (k & (_ & (v' & [= <-] & <-) & Hk) & Hs & Hi & Hf & Hb).
    destruct v; simpl in *; try (destruct Hk as [|[|[|]]]; done);
      destruct (IsString _), (IsInteger _), (IsFloat _), (IsBoolean _);
      simpl in *; try done;
      try (by specialize (Hs eq_refl)); try (by specialize (Hi eq_refl));
      try (by specialize (Hf eq_refl)); try (by specialize (Hb eq_refl)).
Qed.

Lemma allArgsConstant_from_Forall2 args : forall i params,
  (i + length args)%nat = length params ->
  allArgsConstant_from i args params = true <->
  Forall2 (fun a p => argConstant a p = true) args (drop i params).
Proof.
  induction args as [|a rest IH]; intros i params Hlen; simpl in *.
  - rewrite drop_ge by lia. split; [constructor | done].
  - destruct (lookup_lt_is_Some_2 params i) as [p Hp]; [lia|].
    rewrite Hp, (drop_S _ _ _ Hp).
    destruct (argConstant a p) eqn:Ha.
    + rewrite IH by lia. split; [by constructor | by inversion 1].
    + split; [done | inversion 1; congruence].
Qed.

Lemma allArgsConstant_Forall2 args params :
  allArgsConstant args params = true <->
  Forall2 (fun a p => argConstant a p = true) args params.
Proof.
  unfold allArgsConstant. case_bool_decide as Hlen; simpl.
  - by rewrite allArgsConstant_from_Forall2, drop_0.
  - split; [done | intros H; by apply Forall2_length in H].
Qed.

(** [allArgsConstant] in terms of the arguments one by one. *)
Lemma allArgsConstant_eligible args params :
  allArgsConstant args params = true <-> Forall2 eligibleArg args params.
Proof.
  rewrite allArgsConstant_Forall2.
  split; intros H; (eapply Forall2_impl; [exact H|]);
    intros a p; apply argConstant_true.
Qed.

(** C3, as the code has it: [allArgsConstant] returns true exactly when
    the argument count equals the parameter count and every argument is a
    literal of kind string, integer, float or boolean that takes the kind
    of its parameter's class whenever the declared type is of the string,
    integer, float or boolean class.  A parameter type of no such class
    asks nothing of the kind. *)
Theorem allArgsConstant_iff args params :
  allArgsConstant args params = true <-> Forall2 eligibleArg args params.
Proof. apply allArgsConstant_eligible. Qed.

(** C3 as stated fails: a string literal passed for a parameter of
    interface type is let through, though its kind does not match the
    parameter's. *)
Lemma allArgsConstant_not_exact :
  ~ (allArgsConstant [ex.strLit "x"] [ex.param (Types TINTER)] = true <->
     Forall2 eligibleExactly [ex.strLit "x"] [ex.param (Types TINTER)]).
Proof.
  intros [H _]. specialize (H eq_refl).
  inversion H as [|? ? ? ? (k & _ & Hk) _]; subst.
  destruct Hk as [[_ Hk]|[[_ Hk]|[[_ Hk]|[_ Hk]]]]; discriminate Hk.
Qed.

(** C10: the compatibility check constrains only the parameters whose
    declared type is of the string, integer, float or boolean class.  When
    the counts agree and every argument is a literal of a supported kind
    that matches its parameter's class or whose parameter is of none of the
    four classes, [allArgsConstant] returns true. *)
Theorem allArgsConstant_unconstrained args params :
  Forall2 (fun a p => exists k, supportedLiteral a k /\
                      (unconstrained (Field_Type p) \/
                       kindMatches k (Field_Type p))) args params ->
  allArgsConstant args params = true.
Proof.
  intros H. apply allArgsConstant_eligible.
  eapply Forall2_impl; [exact H|].
  intros a p (k & Hlit & [Hu|Hm]); exists k; split; auto.
  - by apply unconstrained_compatible.
  - by apply kindMatches_compatible.
Qed.

Lemma allArgsConstant_unconstrained_witness :
  Forall2 (fun a p => exists k, supportedLiteral a k /\
                      (unconstrained (Field_Type p) \/
                       kindMatches k (Field_Type p)))
          [ex.strLit "x"; ex.intLit 3]
          [ex.param (Types TINTER); ex.param (Types TINT64)] /\
  allArgsConstant [ex.strLit "x"; ex.intLit 3]
                  [ex.param (Types TINTER); ex.param (Types TINT64)] = true.
Proof.
  assert (H : Forall2 (fun a p => exists k, supportedLiteral a k /\
                      (unconstrained (Field_Type p) \/
                       kindMatches k (Field_Type p)))
          [ex.strLit "x"; ex.intLit 3]
          [ex.param (Types TINTER); ex.param (Types TINT64)]).
  { constructor; [|constructor; [|constructor]].
    - exists String. split.
      + split; [reflexivity|]. split; [|left; reflexivity].
        exists (stringVal "x"). split; reflexivity.
      + left. repeat split; reflexivity.
    - exists Int. split.
      + split; [reflexivity|]. split; [|right; left; reflexivity].
        exists (intVal 3). split; reflexivity.
      + right. right. left. split; reflexivity. }
  split; [exact H | exact (allArgsConstant_unconstrained _ _ H)].
Defined.

End Eligibility.

(** ** The environment of the child and the recursion guard *)

Section Guard.

Import constant types ir walk.

Lemma lookupEnv_app_skip key l1 l2 :
  Forall (notKey key) l1 ->
  os.lookupEnv (l1 ++ l2) key = os.lookupEnv l2 key.
Proof.
  induction 1 as [|kv l1 Hkv _ IH]; simpl; [done|].
  destruct (indexByte "="%char kv) as [j|] eqn:Hj; [|done].
  rewrite bool_decide_eq_false_2 by (by apply Hkv). done.
Qed.

Lemma substring_0_0 s : String.substring 0 0 s = EmptyString.
Proof. by destruct s. Qed.

(** The entries [dedupEnv] keeps before the last entry of a key are not
    read as that key. *)
Lemma dedupFromLast_notKey key l : forall saw,
  key <> EmptyString -> key ∈ saw ->
  Forall (notKey key) (exec.dedupFromLast l saw).
Proof.
  induction l as [|kv l IH]; intros saw Hne Hin; simpl; [constructor|].
  unfold exec.keyLen.
  destruct (indexByte "="%char kv) as [[|j]|] eqn:Hj.
  - assert (Hnk : notKey key kv).
    { intros j' Hj'. rewrite Hj in Hj'. injection Hj' as <-.
      rewrite substring_0_0. congruence. }
    destruct kv as [|c rest]; [done|].
    destruct (indexByte "="%char rest);
      case_bool_decide; auto; constructor; auto;
      apply IH; auto; set_solver.
  - cbv zeta. case_bool_decide as Hsaw; [by apply IH|].
    constructor; [|apply IH; auto; set_solver].
    intros j' Hj'. rewrite Hj in Hj'. injection Hj' as <-.
    intros Heq. subst key. done.
  - assert (Hnk : notKey key kv) by (intros j' Hj'; congruence).
    case_bool_decide; [constructor|]; auto.
Qed.

(** Whatever the environment before it holds, the guard appended last is
    what the child reads. *)
Lemma dedupEnv_snoc_guard env :
  os.lookupEnv (exec.dedupEnv (env ++ [guardName +:+ "=1"])) guardName
  = Some "1".
Proof.
  unfold exec.dedupEnv. rewrite rev_unit.
  change (exec.dedupFromLast ((guardName +:+ "=1") :: rev env) [])
    with ((guardName +:+ "=1") :: exec.dedupFromLast (rev env) [guardName]).
  simpl rev. rewrite lookupEnv_app_skip.
  - reflexivity.
  - apply Forall_rev, dedupFromLast_notKey; [done | set_solver].
Qed.

Section WithHost.

Variable h : Host.

Lemma helperEnv_guard w w' :
  environ w' = exec.dedupEnv (helperEnv h w) ->
  os.Getenv w' guardName = "1".
Proof.
  intros Henv. unfold os.Getenv, helperEnv in *.
  rewrite Henv, dedupEnv_snoc_guard. reflexivity.
Qed.

(** What [executeHelperProgram] does to the world: it leaves the
    environment and the position alone, and it starts at most one child,
    whose environment is the one built for it and whose captured output
    it returns. *)
Lemma executeHelperProgram_inv src w r w' :
  executeHelperProgram h src w = (r, w') ->
  environ w' = environ w /\ base_Pos w' = base_Pos w /\
  ((spawned w' = spawned w /\ r = EmptyString) \/
   exists c o, spawned w' = spawned w ++ [(c, o)] /\
               Cmd_Env c = helperEnv h w /\ r = capturedOutput o).
Proof.
  unfold executeHelperProgram, os.MkdirTemp.
  destruct (os.prefixAndSuffix _) as [pre suf].
  destruct (tempRandom h (rand w) (files w)) as [rnd|]; [|intros [= <- <-]; auto].
  destruct (files w !! _); [intros [= <- <-]; auto|].
  unfold runInDir, os.WriteFile. cbn [files set_files drawn].
  destruct (writable h _ _); [|intros [= <- <-]; auto].
  unfold exec.Run. cbn [files set_files drawn].
  destruct (runChild h _ _) as [o fs].
  destruct o as [msg|code out err].
  - destruct (1 <? LowerM h); intros [= <- <-]; cbn;
      (split; [done|split; [done|right]]); eexists _, _; split; done.
  - destruct (code =? 0) eqn:Hc.
    + intros [= <- <-]; cbn. split; [done|split; [done|right]].
      eexists _, _; split; [done|]. cbn. rewrite Hc. done.
    + destruct (1 <? LowerM h); intros [= <- <-]; cbn;
        (split; [done|split; [done|right]]); eexists _, _;
        (split; [done|]); cbn; rewrite Hc; done.
Qed.

Lemma trace_environ n msg w : environ (trace h n msg w) = environ w.
Proof. unfold trace. by destruct (n <? LowerM h). Qed.

Lemma trace_files n msg w : files (trace h n msg w) = files w.
Proof. unfold trace. by destruct (n <? LowerM h). Qed.

Lemma trace_base_Pos n msg w : base_Pos (trace h n msg w) = base_Pos w.
Proof. unfold trace. by destruct (n <? LowerM h). Qed.

Lemma trace_spawned n msg w : spawned (trace h n msg w) = spawned w.
Proof. unfold trace. by destruct (n <? LowerM h). Qed.

Lemma trace_rand n msg w : rand (trace h n msg w) = rand w.
Proof. unfold trace. by destruct (n <? LowerM h). Qed.

Lemma helperEnv_trace n msg w : helperEnv h (trace h n msg w) = helperEnv h w.
Proof. unfold helperEnv, os.Environ. by rewrite trace_environ. Qed.

(** The ways [evaluatePureFunctionAtCompileTime] ends. *)
Lemma evaluate_inv fn args w r w' :
  evaluatePureFunctionAtCompileTime h fn args w = (r, w') ->
  environ w' = environ w /\ base_Pos w' = base_Pos w /\
  ((os.Getenv w guardName <> EmptyString /\ r = Ret None /\ w' = w) \/
   (os.Getenv w guardName = EmptyString /\
    spawned w' = spawned w /\
    ((generateHelperProgram h fn args = Panic /\ r = Panic) \/
     (generateHelperProgram h fn args <> Panic /\ r = Ret None))) \/
   (os.Getenv w guardName = EmptyString /\
    exists src c o,
      generateHelperProgram h fn args = Ret src /\ src <> EmptyString /\
      spawned w' = spawned w ++ [(c, o)] /\
      Cmd_Env c = helperEnv h w /\
      r = if bool_decide (capturedOutput o = EmptyString) then Ret None
          else Ret (Some (BasicLit (base_Pos w) (Types TSTRING) 1
                                   (stringVal (capturedOutput o)))))).
Proof.
  unfold evaluatePureFunctionAtCompileTime.
  case_bool_decide as Hg.
  { intros [= <- <-]. split; [done|split; [done|left; done]]. }
  destruct (generateHelperProgram h fn args) as [src|] eqn:Hgen.
  2:{ intros [= <- <-]. rewrite trace_environ, trace_base_Pos, trace_spawned.
      split; [done|split; [done|]]. right; left. auto. }
  case_bool_decide as Hsrc.
  { intros [= <- <-].
    rewrite !trace_environ, !trace_base_Pos, !trace_spawned.
    split; [done|split; [done|]]. right; left.
    split; [done|split; [done|right]]. done. }
  destruct (executeHelperProgram h src _) as [res w1] eqn:Hexec.
  apply executeHelperProgram_inv in Hexec as (Henv & Hpos & Hsp).
  rewrite !trace_environ in Henv. rewrite !trace_base_Pos in Hpos.
  rewrite !trace_spawned, !helperEnv_trace in Hsp.
  case_bool_decide as Hres; intros [= <- <-];
    rewrite ?trace_environ, ?trace_base_Pos, ?trace_spawned;
    (split; [done|split; [done|]]).
  - destruct Hsp as [[Hsp _]|(c & o & Hsp & Hc & Ho)].
    + right; left. split; [done|split; [done|right]]. done.
    + right; right. split; [done|]. exists src, c, o.
      rewrite <- Ho, bool_decide_eq_true_2 by done. done.
  - destruct Hsp as [[_ ?]|(c & o & Hsp & Hc & Ho)]; [done|].
    right; right. split; [done|]. exists src, c, o.
    rewrite <- Ho, bool_decide_eq_false_2 by done.
    rewrite Hpos. done.
Qed.

End WithHost.

End Guard.

(** ** The recursion guard, the fallback, the scratch directory and the
       materialized literal *)

Section Evaluation.

Import constant types ir walk.

Variable h : Host.

(** C2: when the guard variable GO_PURE_EVAL_HELPER is set to a value that
    is not empty, [evaluatePureFunctionAtCompileTime] returns nil at once
    and leaves the world as it is: nothing is printed, written or run.
    A process inside a helper program reads the guard as 1, so an evaluation
    there returns nil in the same way. *)
Theorem recursion_guard_short_circuit fn args w :
  (os.Getenv w guardName <> EmptyString ->
   evaluatePureFunctionAtCompileTime h fn args w = (Ret None, w)) /\
  (insideHelper w ->
   os.Getenv w guardName = "1" /\
   evaluatePureFunctionAtCompileTime h fn args w = (Ret None, w)).
Proof.
  assert (Hset : os.Getenv w guardName <> EmptyString ->
                 evaluatePureFunctionAtCompileTime h fn args w = (Ret None, w)).
  { intros Hg. unfold evaluatePureFunctionAtCompileTime.
    by rewrite bool_decide_eq_true_2. }
  split; [exact Hset|].
  intros (h0 & src & w0 & c & o & Hin & Hnew & Henv).
  assert (Hone : os.Getenv w guardName = "1").
  { destruct (executeHelperProgram h0 src w0) as [r w1] eqn:Hexec.
    apply executeHelperProgram_inv in Hexec as (_ & _ & Hsp).
    simpl in Hin.
    destruct Hsp as [[Hsp _]|(c' & o' & Hsp & Hc & _)]; [congruence|].
    rewrite Hsp, elem_of_app, list_elem_of_singleton in Hin.
    destruct Hin as [Hin|[= -> ->]]; [done|].
    apply (helperEnv_guard h0 w0). unfold exec.childEnviron in Henv.
    by rewrite Henv, Hc. }
  split; [exact Hone|]. apply Hset. by rewrite Hone.
Qed.

Lemma helperEnv_eq w :
  helperEnv h w =
  environ w ++
  (if bool_decide (GOROOT h <> EmptyString) then ["GOROOT=" +:+ GOROOT h]
   else []) ++ ["GO_PURE_EVAL_HELPER=1"].
Proof.
  unfold helperEnv, os.Environ. case_bool_decide; [|done].
  by rewrite <- app_assoc.
Qed.

(** C9: the guard reaches a helper program only through the environment
    built for that child: the compiler's own environment, the GOROOT when
    it is known, and GO_PURE_EVAL_HELPER=1.  The environment of the
    compiler process is the same after an evaluation as before, so what a
    later evaluation in this process reads as the guard does not depend on
    the evaluations before it. *)
Theorem guard_only_in_child_environment fn args w :
  let w' := snd (evaluatePureFunctionAtCompileTime h fn args w) in
  environ w' = environ w /\
  os.Getenv w' guardName = os.Getenv w guardName /\
  exists started,
    spawned w' = spawned w ++ started /\
    Forall (fun co =>
              Cmd_Env (fst co) =
              environ w ++
              (if bool_decide (GOROOT h <> EmptyString)
               then ["GOROOT=" +:+ GOROOT h] else []) ++
              ["GO_PURE_EVAL_HELPER=1"]) started.
Proof.
  destruct (evaluatePureFunctionAtCompileTime h fn args w) as [r w'] eqn:He.
  apply evaluate_inv in He as (Henv & _ & Hcases). simpl.
  split; [done|]. split; [unfold os.Getenv; by rewrite Henv|].
  destruct Hcases as [(_ & _ & ->)|[(_ & Hsp & _)|(_ & src & c & o & _ & _ & Hsp & Hc & _)]].
  - exists []. by rewrite app_nil_r.
  - exists []. by rewrite app_nil_r.
  - exists [(c, o)]. split; [done|]. constructor; [|constructor].
    simpl. by rewrite Hc, helperEnv_eq.
Qed.

Lemma renderArgs_literals args : forall acc,
  Forall (fun a => Node_Op a = OLITERAL) args ->
  renderArgs h args acc <> Panic.
Proof.
  induction args as [|a rest IH]; intros acc Hall; simpl; [done|].
  inversion Hall as [|? ? Ha Hrest]; subst.
  destruct a as [pos typ tc v| |]; try done. simpl.
  destruct (argExpr h v); [by apply IH | done].
Qed.

Lemma generateHelperProgram_literals fn args :
  Forall (fun a => Node_Op a = OLITERAL) args ->
  generateHelperProgram h fn args <> Panic.
Proof.
  intros Hall. unfold generateHelperProgram.
  pose proof (renderArgs_literals args [] Hall) as Hr.
  by destruct (renderArgs h args []) as [[l|]|].
Qed.

(** C4: an attempt on literal arguments that fails returns nil and nothing
    else: when the helper program cannot be generated, when no child is
    started, when the child does not start, when it exits with a status
    other than 0, and when its captured standard output is empty.  An
    empty output counts as a failure. *)
Theorem failure_fallback fn args w r w' :
  evaluatePureFunctionAtCompileTime h fn args w = (r, w') ->
  Forall (fun a => Node_Op a = OLITERAL) args ->
  generateHelperProgram h fn args = Ret EmptyString \/ helperFailed w w' ->
  r = Ret None.
Proof.
  intros He Hlit Hfail.
  apply generateHelperProgram_literals with (fn := fn) in Hlit.
  apply evaluate_inv in He as (_ & _ & Hcases).
  destruct Hcases as [(_ & -> & _)|[(_ & _ & [[? _]|[_ ->]])|Hrun]]; try done.
  destruct Hrun as (_ & src & c & o & Hgen & Hsrc & Hsp & _ & ->).
  destruct Hfail as [Hfail|[Hfail|(c' & o' & Hsp' & Ho)]].
  - congruence.
  - rewrite Hsp in Hfail. apply (f_equal length) in Hfail.
    rewrite length_app in Hfail. simpl in Hfail. lia.
  - rewrite Hsp in Hsp'. apply app_inv_head in Hsp'. injection Hsp' as -> ->.
    rewrite bool_decide_eq_true_2; [done|].
    destruct o' as [msg|code out err]; simpl in *; [done|].
    destruct (Z.eqb_spec code 0); [|done]. by destruct Ho.
Qed.

Lemma MkdirTemp_trace n msg w :
  fst (os.MkdirTemp h EmptyString "go-pure-eval-*" (trace h n msg w)) =
  fst (os.MkdirTemp h EmptyString "go-pure-eval-*" w).
Proof.
  unfold os.MkdirTemp, os.TempDir, os.Getenv.
  rewrite trace_environ, trace_files, trace_rand.
  destruct (os.prefixAndSuffix _), (tempRandom h _ _); [|done].
  by destruct (files w !! _).
Qed.

Lemma RemoveAll_within path p w :
  os.within path p = true -> files (os.RemoveAll path w) !! p = None.
Proof.
  intros Hin. unfold os.RemoveAll. simpl.
  apply map_lookup_filter_None. right. intros x _. simpl. congruence.
Qed.

Lemma executeHelperProgram_cleanup src w tmpDir p :
  scratchDir h w = Some tmpDir ->
  os.within tmpDir p = true ->
  files (snd (executeHelperProgram h src w)) !! p = None.
Proof.
  unfold scratchDir, executeHelperProgram. intros Hdir Hin.
  destruct (os.MkdirTemp h _ _ w) as [[d|] w1]; simpl in Hdir; [|done].
  injection Hdir as ->.
  destruct (runInDir h tmpDir src w1) as [res w2]. simpl.
  by apply RemoveAll_within.
Qed.

(** C5: when [executeHelperProgram] has made its scratch directory, the
    directory and everything in it are gone when the function returns,
    whatever happened in between: the write failed, the child failed to
    build or to run, or all went well.  After an evaluation the scratch
    directory of that evaluation is not on disk. *)
Theorem scratch_directory_removed src fn args w tmpDir :
  scratchDir h w = Some tmpDir ->
  (forall p, os.within tmpDir p = true ->
             files (snd (executeHelperProgram h src w)) !! p = None) /\
  files (snd (evaluatePureFunctionAtCompileTime h fn args w)) !! tmpDir = None.
Proof.
  intros Hdir. split.
  { intros p Hin. by apply (executeHelperProgram_cleanup src w tmpDir). }
  assert (Hself : os.within tmpDir tmpDir = true).
  { unfold os.within. by rewrite bool_decide_eq_true_2. }
  assert (Hfresh : files w !! tmpDir = None).
  { unfold scratchDir, os.MkdirTemp in Hdir.
    destruct (os.prefixAndSuffix _), (tempRandom h _ _); [|done].
    destruct (files w !! _) eqn:Hl; simpl in Hdir; [done|].
    by injection Hdir as <-. }
  unfold evaluatePureFunctionAtCompileTime.
  case_bool_decide; [done|].
  destruct (generateHelperProgram h fn args) as [prog|]; simpl;
    [|by rewrite trace_files].
  case_bool_decide; simpl; [by rewrite !trace_files|].
  destruct (executeHelperProgram h prog _) as [res w1] eqn:Hexec.
  assert (Hgone : files w1 !! tmpDir = None).
  { change w1 with (snd (res, w1)). rewrite <- Hexec.
    apply (executeHelperProgram_cleanup _ _ tmpDir); [|done].
    unfold scratchDir in *. by rewrite !MkdirTemp_trace. }
  case_bool_decide; simpl; by rewrite !trace_files.
Qed.

(** C8, as the code has it: the node a successful evaluation returns is a
    literal of type string whose value is the standard output captured from
    the one child that evaluation ran, which is not empty; its type-checked
    flag is 1 and its position is [base.Pos] as the function finds it, the
    call site's position when [base.Pos] holds the position of the call
    that is walked.  Its type is the call's return type when the function
    returns a string. *)
Theorem materialized_literal fn args w n w' :
  evaluatePureFunctionAtCompileTime h fn args w = (Ret (Some n), w') ->
  Node_Op n = OLITERAL /\
  Node_Type n = Some (Types TSTRING) /\
  Node_Typecheck n = 1 /\
  Node_Pos n = base_Pos w /\
  (forall call, Node_Pos call = base_Pos w -> Node_Pos n = Node_Pos call) /\
  (exists c o, spawned w' = spawned w ++ [(c, o)] /\
               Node_Val n = Some (stringVal (capturedOutput o)) /\
               capturedOutput o <> EmptyString) /\
  (forall pos res, Results fn = [res] -> Field_Type res = Types TSTRING ->
                   Node_Type n = Node_Type (CallExpr pos 1 fn args)).
Proof.
  intros He. apply evaluate_inv in He as (_ & _ & Hcases).
  destruct Hcases as [(_ & ? & _)|[(_ & _ & [[_ ?]|[_ ?]])|Hrun]]; try done.
  destruct Hrun as (_ & src & c & o & _ & _ & Hsp & _ & Hr).
  case_bool_decide as Hout; [done|]. injection Hr as ->. simpl.
  split; [done|]. split; [done|]. split; [done|]. split; [done|].
  split; [by intros call ->|].
  split; [by exists c, o|].
  intros _ res -> ->. done.
Qed.

End Evaluation.

(** ** The synthesized program: [generateHelperProgram] *)

Section Program.

Import constant types ir walk.

Variable h : Host.

Lemma renderArgs_Some args : forall acc,
  Forall (fun a => exists k, supportedLiteral a k) args ->
  exists exprs, Forall2 (rendersAs h) args exprs /\
                renderArgs h args acc = Ret (Some (acc ++ exprs)).
Proof.
  induction args as [|a rest IH]; intros acc Hall; simpl.
  - exists []. split; [constructor | by rewrite app_nil_r].
  - inversion Hall as [|? ? (k & _ & (v & Hv & Hk) & Hsup) Hrest]; subst.
    rewrite Hv.
    assert (He : exists e, argExpr h v = Some e).
    { destruct v; simpl in *; eauto;
        destruct Hsup as [|[|[|]]]; discriminate. }
    destruct He as [e He]. rewrite He.
    destruct (IH (acc ++ [e]) Hrest) as (exprs & Hexprs & Hr).
    exists (e :: exprs). split.
    + constructor; [by exists v | done].
    + by rewrite Hr, <- app_assoc.
Qed.

Lemma eligible_supported args params :
  allArgsConstant args params = true ->
  Forall (fun a => exists k, supportedLiteral a k) args.
Proof.
  intros H. apply allArgsConstant_eligible in H.
  induction H as [|a p args params (k & Hk & _) _ IH]; constructor; eauto.
Qed.

(** C6, as the code has it: for an eligible call the synthesized program
    is the package main that imports the path of the function's package
    and, to print, the package fmt; its function main calls the function,
    qualified by the last element of that path, on the rendered arguments
    separated by a comma and a space, and hands the result to [fmt.Print],
    which writes it with nothing added. *)
Theorem helper_program_shape fn args :
  allArgsConstant args (Params fn) = true ->
  exists exprs,
    Forall2 (rendersAs h) args exprs /\
    generateHelperProgram h fn args =
    Ret ("package main" +:+ nl +:+
         nl +:+
         "import " +:+ dquote +:+ Sym_Pkg_Path fn +:+ dquote +:+ nl +:+
         "import " +:+ dquote +:+ "fmt" +:+ dquote +:+ nl +:+
         nl +:+
         "func main() {" +:+ nl +:+
         tab +:+ "result := " +:+ filepath.Base (Sym_Pkg_Path fn) +:+ "." +:+
           Sym_Name fn +:+ "(" +:+ strings_Join exprs ", " +:+ ")" +:+ nl +:+
         tab +:+ "fmt.Print(result)" +:+ nl +:+
         "}" +:+ nl).
Proof.
  intros Hel. apply eligible_supported in Hel.
  destruct (renderArgs_Some args [] Hel) as (exprs & Hexprs & Hr).
  exists exprs. split; [done|].
  unfold generateHelperProgram. by rewrite Hr.
Qed.

End Program.

Section ProgramExamples.

Import constant types ir walk.

Lemma helper_program_shape_witness :
  let hst := ex.host 0 "30" in
  allArgsConstant [ex.intLit 10; ex.intLit 20] (Params ex.addPure) = true /\
  exists exprs,
    Forall2 (rendersAs hst) [ex.intLit 10; ex.intLit 20] exprs /\
    generateHelperProgram hst ex.addPure [ex.intLit 10; ex.intLit 20] =
    Ret ("package main" +:+ nl +:+
         nl +:+
         "import " +:+ dquote +:+ "example.com/calc" +:+ dquote +:+ nl +:+
         "import " +:+ dquote +:+ "fmt" +:+ dquote +:+ nl +:+
         nl +:+
         "func main() {" +:+ nl +:+
         tab +:+ "result := " +:+ filepath.Base "example.com/calc" +:+ "." +:+
           "AddPure" +:+ "(" +:+ strings_Join exprs ", " +:+ ")" +:+ nl +:+
         tab +:+ "fmt.Print(result)" +:+ nl +:+
         "}" +:+ nl).
Proof.
  intros hst.
  assert (Hel : allArgsConstant [ex.intLit 10; ex.intLit 20]
                  (Params ex.addPure) = true) by reflexivity.
  split; [exact Hel|].
  exact (helper_program_shape hst ex.addPure [ex.intLit 10; ex.intLit 20] Hel).
Defined.

(** The program for the lowercase folding of HELLO WORLD, line by line. *)
Example helper_program_ToLower :
  generateHelperProgram (ex.host 0 "hello world") ex.ToLower
    [ex.strLit "HELLO WORLD"] =
  Ret ("package main" +:+ nl +:+
       nl +:+
       "import " +:+ dquote +:+ "strings" +:+ dquote +:+ nl +:+
       "import " +:+ dquote +:+ "fmt" +:+ dquote +:+ nl +:+
       nl +:+
       "func main() {" +:+ nl +:+
       tab +:+ "result := strings.ToLower(" +:+
         dquote +:+ "HELLO WORLD" +:+ dquote +:+ ")" +:+ nl +:+
       tab +:+ "fmt.Print(result)" +:+ nl +:+
       "}" +:+ nl).
Proof. reflexivity. Qed.

(** C6 as stated fails: the program imports the package of the function
    and the package fmt, not the package of the function alone. *)
Lemma helper_program_imports_fmt :
  exists prog,
    generateHelperProgram (ex.host 0 "hello world") ex.ToLower
      [ex.strLit "HELLO WORLD"] = Ret prog /\
    importsOf prog = ["strings"; "fmt"] /\
    importsOf prog <> [Sym_Pkg_Path ex.ToLower].
Proof.
  eexists. split; [reflexivity|]. split; [reflexivity|].
  vm_compute. discriminate.
Qed.

End ProgramExamples.

(** ** Witnesses of the evaluation theorems *)

Section EvaluationExamples.

Import constant types ir walk.

Lemma recursion_guard_short_circuit_witness :
  (os.Getenv ex.helperWorld guardName <> EmptyString /\
   evaluatePureFunctionAtCompileTime (ex.host 0 "hello") ex.ToLower
     [ex.strLit "HELLO"] ex.helperWorld = (Ret None, ex.helperWorld)) /\
  (insideHelper ex.helperWorld /\
   os.Getenv ex.helperWorld guardName = "1" /\
   evaluatePureFunctionAtCompileTime (ex.host 0 "hello") ex.ToLower
     [ex.strLit "HELLO"] ex.helperWorld = (Ret None, ex.helperWorld)).
Proof.
  assert (Hset : os.Getenv ex.helperWorld guardName <> EmptyString).
  { vm_compute. discriminate. }
  assert (Hin : insideHelper ex.helperWorld).
  { exists (ex.host 0 "x"), "package main", ex.world.
    eexists _, _. split; [|split].
    - vm_compute. apply list_elem_of_here.
    - vm_compute. apply not_elem_of_nil.
    - vm_compute. reflexivity. }
  pose proof (recursion_guard_short_circuit (ex.host 0 "hello") ex.ToLower
                [ex.strLit "HELLO"] ex.helperWorld) as [H1 H2].
  split; [split; [exact Hset | exact (H1 Hset)]
         | split; [exact Hin | exact (H2 Hin)]].
Defined.

(** A child that exits with status 1 after writing to its standard
    output: the evaluation returns nil. *)
Lemma failure_fallback_witness :
  let run := evaluatePureFunctionAtCompileTime (ex.host 1 "partial")
               ex.ToLower [ex.strLit "HELLO"] ex.world in
  Forall (fun a => Node_Op a = OLITERAL) [ex.strLit "HELLO"] /\
  (generateHelperProgram (ex.host 1 "partial") ex.ToLower
     [ex.strLit "HELLO"] = Ret EmptyString \/
   helperFailed ex.world (snd run)) /\
  fst run = Ret None.
Proof.
  intros run.
  assert (Hlit : Forall (fun a => Node_Op a = OLITERAL) [ex.strLit "HELLO"]).
  { repeat constructor. }
  assert (Hfail : helperFailed ex.world (snd run)).
  { right. eexists _, _. split; [vm_compute; reflexivity|].
    simpl. left. lia. }
  split; [exact Hlit|]. split; [right; exact Hfail|].
  apply (failure_fallback (ex.host 1 "partial") ex.ToLower
           [ex.strLit "HELLO"] ex.world (fst run) (snd run)).
  - apply surjective_pairing.
  - exact Hlit.
  - right; exact Hfail.
Defined.

Lemma scratch_directory_removed_witness :
  scratchDir (ex.host 0 "hello") ex.world = Some ex.scratch /\
  (forall p, os.within ex.scratch p = true ->
     files (snd (executeHelperProgram (ex.host 0 "hello") "package main"
                   ex.world)) !! p = None) /\
  files (snd (evaluatePureFunctionAtCompileTime (ex.host 0 "hello")
                ex.ToLower [ex.strLit "HELLO"] ex.world)) !! ex.scratch = None.
Proof.
  assert (Hdir : scratchDir (ex.host 0 "hello") ex.world = Some ex.scratch).
  { vm_compute. reflexivity. }
  split; [exact Hdir|].
  exact (scratch_directory_removed (ex.host 0 "hello") "package main"
           ex.ToLower [ex.strLit "HELLO"] ex.world ex.scratch Hdir).
Defined.

Lemma materialized_literal_witness :
  let run := evaluatePureFunctionAtCompileTime (ex.host 0 "hello world")
               ex.ToLower [ex.strLit "HELLO WORLD"] ex.world in
  let n := BasicLit 12 (Types TSTRING) 1 (stringVal "hello world") in
  run = (Ret (Some n), snd run) /\
  Node_Op n = OLITERAL /\
  Node_Type n = Some (Types TSTRING) /\
  Node_Typecheck n = 1 /\
  Node_Pos n = base_Pos ex.world /\
  (forall call, Node_Pos call = base_Pos ex.world ->
                Node_Pos n = Node_Pos call) /\
  (exists c o, spawned (snd run) = spawned ex.world ++ [(c, o)] /\
               Node_Val n = Some (stringVal (capturedOutput o)) /\
               capturedOutput o <> EmptyString) /\
  (forall pos res, Results ex.ToLower = [res] ->
                   Field_Type res = Types TSTRING ->
                   Node_Type n =
                   Node_Type (CallExpr pos 1 ex.ToLower [ex.strLit "HELLO WORLD"])).
Proof.
  intros run n.
  assert (Hrun : run = (Ret (Some n), snd run)).
  { vm_compute. reflexivity. }
  split; [exact Hrun|].
  exact (materialized_literal (ex.host 0 "hello world") ex.ToLower
           [ex.strLit "HELLO WORLD"] ex.world n (snd run) Hrun).
Defined.

(** C8 as stated fails, in the type and in the position.  [addPure(10, 20)]
    returns an integer, and the node that stands for it is a literal of type
    string.  The function is not given the call: it tags the node with
    [base.Pos], here position 12, and the node of a call that stands at
    position 7 is at position 12. *)
Lemma materialized_type_and_position_differ :
  exists n w',
    evaluatePureFunctionAtCompileTime (ex.host 0 "30") ex.addPure
      [ex.intLit 10; ex.intLit 20] ex.world = (Ret (Some n), w') /\
    Node_Type n <>
    Node_Type (CallExpr 7 1 ex.addPure [ex.intLit 10; ex.intLit 20]) /\
    Node_Pos n <>
    Node_Pos (CallExpr 7 1 ex.addPure [ex.intLit 10; ex.intLit 20]).
Proof.
  eexists _, _. split; [vm_compute; reflexivity|].
  split; simpl; discriminate.
Qed.

End EvaluationExamples.

(** ** Fidelity of the materialized constant *)

Section Fidelity.

Import constant types ir walk.

Variable h : Host.

Lemma workspaceReady_trace n msg w :
  workspaceReady h w -> workspaceReady h (trace h n msg w).
Proof.
  intros (d & Hd & Hw). exists d. unfold scratchDir in *.
  by rewrite MkdirTemp_trace, trace_files.
Qed.

Lemma MkdirTemp_Some w d :
  scratchDir h w = Some d ->
  os.MkdirTemp h EmptyString "go-pure-eval-*" w =
  (Some d, set_files (drawn w) (<[d := Dir]> (files w))).
Proof.
  unfold scratchDir, os.MkdirTemp.
  destruct (os.prefixAndSuffix _) as [pre suf].
  destruct (tempRandom h (rand w) (files w)) as [rnd|]; [|done].
  destruct (files w !! _); [done|]. by intros [= <-].
Qed.

(** With the scratch directory ready and a toolchain that runs the
    program, [executeHelperProgram] returns what the program printed. *)
Lemma executeHelperProgram_success src out w :
  workspaceReady h w -> toolchainPrints h src out ->
  fst (executeHelperProgram h src w) = out.
Proof.
  intros (d & Hd & Hw) Hrun.
  unfold executeHelperProgram. rewrite (MkdirTemp_Some w d Hd).
  unfold runInDir, os.WriteFile. cbn [files set_files drawn]. rewrite Hw.
  unfold exec.Run. cbn [files set_files drawn].
  edestruct Hrun as (err & fs' & Hchild);
    [| | rewrite Hchild]; [reflexivity | apply lookup_insert_eq |].
  done.
Qed.

Lemma programText_not_empty pkgPath funcName argExprs :
  programText pkgPath funcName argExprs <> EmptyString.
Proof. unfold programText. discriminate. Qed.

(** An eligible call has a program. *)
Lemma eligible_program fn args :
  allArgsConstant args (Params fn) = true ->
  exists prog, generateHelperProgram h fn args = Ret prog /\
               prog <> EmptyString.
Proof.
  intros Hel. unfold generateHelperProgram.
  destruct (renderArgs_Some h args [] (eligible_supported _ _ Hel))
    as (exprs & _ & Hr).
  rewrite Hr. eexists. split; [done|]. apply programText_not_empty.
Qed.


End Fidelity.

Section FidelityExamples.

Import constant types ir walk.

Lemma ex_host_prints code out prog :
  code = 0 -> toolchainPrints (ex.host code out) prog out.
Proof.
  intros -> c fs bin f Hargs Hf. simpl. rewrite Hargs. eauto.
Qed.

Lemma ex_workspaceReady code out : workspaceReady (ex.host code out) ex.world.
Proof. exists ex.scratch. split; [vm_compute; reflexivity | reflexivity]. Qed.



End FidelityExamples.

(** ** The call site *)

Section CallSite.

Import constant types ir walk.

Variable h : Host.

(** A call with an argument that is not a literal is left as it is, and
    nothing is done for it. *)
Lemma walkCallPure_not_literal pos tc fn args w :
  Exists (fun a => Node_Op a <> OLITERAL) args ->
  walkCallPure h (CallExpr pos tc fn args) w = (Ret None, w).
Proof.
  intros Hex. simpl. destruct (Pragma_Pure fn); [|done].
  destruct (allArgsConstant args (Params fn)) eqn:Hel; [|done].
  apply allArgsConstant_eligible in Hel. exfalso.
  induction Hel as [|a p args' params' (k & (Hop & _) & _) _ IH];
    inversion Hex; subst; auto.
Qed.

(** When the attempt fails the call is left as it is. *)
Lemma walkCallPure_fallback pos tc fn args w r w' :
  walkCallPure h (CallExpr pos tc fn args) w = (r, w') ->
  helperFailed w w' -> r = Ret None.
Proof.
  simpl. destruct (Pragma_Pure fn); [|by intros [= <- <-]].
  destruct (allArgsConstant args (Params fn)) eqn:Hel; [|by intros [= <- <-]].
  intros He Hfail.
  destruct (eligible_program h fn args Hel) as (prog & Hgen & Hprog).
  apply evaluate_inv in He as (_ & _ & Hcases).
  destruct Hcases as [(_ & -> & _)|[(_ & _ & [[? _]|[_ ->]])|Hrun]];
    try done; [congruence|].
  destruct Hrun as (_ & src & c & o & _ & _ & Hsp & _ & ->).
  destruct Hfail as [Hfail|(c' & o' & Hsp' & Ho)].
  - rewrite Hsp in Hfail. apply (f_equal length) in Hfail.
    rewrite length_app in Hfail. simpl in Hfail. lia.
  - rewrite Hsp in Hsp'. apply app_inv_head in Hsp'. injection Hsp' as -> ->.
    rewrite bool_decide_eq_true_2; [done|].
    destruct o' as [msg|code out err]; simpl in *; [done|].
    destruct (Z.eqb_spec code 0); [|done]. by destruct Ho.
Qed.

End CallSite.

(** A call of a pure function whose parameter is of interface type, with a
    string literal for it, goes through [allArgsConstant] and on to the
    toolchain, and is replaced by what the child printed. *)
Example interface_parameter_reaches_execution :
  let run := walk.walkCallPure (ex.host 0 "text")
               (ir.CallExpr 12 1 ex.Describe [ex.strLit "x"]) ex.world in
  fst run = Ret (Some (ir.BasicLit 12 (types.Types types.TSTRING) 1
                                   (constant.stringVal "text"))) /\
  length (spawned (snd run)) = 1%nat.
Proof. vm_compute. split; reflexivity. Qed.

(** ** Quoting a string and reading it back *)

Section QuoteFacts.

Import utf8 strconv.

(** *** Bytes *)

Lemma byte_of_range c : 0 <= byte_of c < 256.
Proof.
  unfold byte_of. pose proof (N_ascii_bounded c). lia.
Qed.

Lemma chr_byte_of c : chr (byte_of c) = c.
Proof.
  unfold chr. pose proof (byte_of_range c).
  rewrite Z.mod_small by lia. unfold byte_of.
  rewrite N2Z.id. apply ascii_N_embedding.
Qed.

Lemma str1_byte_of c : str1 (byte_of c) = String c EmptyString.
Proof. unfold str1. by rewrite chr_byte_of. Qed.

(** Bits that do not overlap add up. *)
Lemma lor_disjoint k a b :
  0 <= k -> a mod 2 ^ k = 0 -> 0 <= b < 2 ^ k -> Z.lor a b = a + b.
Proof.
  intros Hk Ha Hb. symmetry. apply Z.add_nocarry_lor.
  apply Z.bits_inj'. intros n Hn. rewrite Z.land_spec, Z.bits_0.
  destruct (Z.lt_ge_cases n k) as [Hlt|Hge].
  - rewrite (Z.div_mod a (2 ^ k)) by lia. rewrite Ha, Z.add_0_r.
    rewrite Z.mul_comm, Z.mul_pow2_bits_low by lia. done.
  - rewrite <- (Z.mod_small b (2 ^ k)) by lia.
    rewrite Z.mod_pow2_bits_high by lia. apply andb_false_r.
Qed.

Lemma land_mask k a : 0 <= k -> Z.land a (2 ^ k - 1) = a mod 2 ^ k.
Proof.
  intros Hk. rewrite <- Z.land_ones by done. f_equal.
  rewrite Z.ones_equiv. lia.
Qed.

Lemma land_maskx a : Z.land a maskx = a mod 64.
Proof. exact (land_mask 6 a ltac:(lia)). Qed.
Lemma land_mask2 a : Z.land a mask2 = a mod 32.
Proof. exact (land_mask 5 a ltac:(lia)). Qed.
Lemma land_mask3 a : Z.land a mask3 = a mod 16.
Proof. exact (land_mask 4 a ltac:(lia)). Qed.
Lemma land_mask4 a : Z.land a mask4 = a mod 8.
Proof. exact (land_mask 3 a ltac:(lia)). Qed.

(** The value of a two-byte sequence. *)
Lemma decode2_value b0 b1 :
  0xC2 <= b0 <= 0xDF -> 0x80 <= b1 <= 0xBF ->
  Z.lor (Z.shiftl (Z.land b0 mask2) 6) (Z.land b1 maskx)
  = (b0 - 0xC0) * 64 + (b1 - 0x80).
Proof.
  intros H0 H1. rewrite land_mask2, land_maskx, Z.shiftl_mul_pow2 by lia.
  change (2 ^ 6) with 64.
  rewrite (lor_disjoint 6);
    [ | lia | apply Z_mod_mult | change (2 ^ 6) with 64 ];
    Z.div_mod_to_equations; lia.
Qed.

Lemma decode3_value b0 b1 b2 :
  0xE0 <= b0 <= 0xEF -> 0x80 <= b1 <= 0xBF -> 0x80 <= b2 <= 0xBF ->
  Z.lor (Z.lor (Z.shiftl (Z.land b0 mask3) 12) (Z.shiftl (Z.land b1 maskx) 6))
        (Z.land b2 maskx)
  = (b0 - 0xE0) * 4096 + (b1 - 0x80) * 64 + (b2 - 0x80).
Proof.
  intros H0 H1 H2.
  rewrite land_mask3, !land_maskx, !Z.shiftl_mul_pow2 by lia.
  change (2 ^ 12) with (64 * 2 ^ 6). change (2 ^ 6) with 64.
  rewrite (lor_disjoint 12 (b0 mod 16 * (64 * 64)) (b1 mod 64 * 64)).
  2: lia. 2: { change (2^12) with (64*64). apply Z_mod_mult. }
  2: { change (2^12) with 4096. Z.div_mod_to_equations; lia. }
  rewrite (lor_disjoint 6);
    [ Z.div_mod_to_equations; lia | lia |
    | change (2^6) with 64; Z.div_mod_to_equations; lia].
  change (2 ^ 6) with 64.
  replace (b0 mod 16 * (64 * 64) + b1 mod 64 * 64)
    with ((b0 mod 16 * 64 + b1 mod 64) * 64) by lia.
  apply Z_mod_mult.
Qed.

Lemma decode4_value b0 b1 b2 b3 :
  0xF0 <= b0 <= 0xF4 -> 0x80 <= b1 <= 0xBF -> 0x80 <= b2 <= 0xBF ->
  0x80 <= b3 <= 0xBF ->
  Z.lor (Z.lor (Z.lor (Z.shiftl (Z.land b0 mask4) 18)
                      (Z.shiftl (Z.land b1 maskx) 12))
               (Z.shiftl (Z.land b2 maskx) 6))
        (Z.land b3 maskx)
  = (b0 - 0xF0) * 262144 + (b1 - 0x80) * 4096 + (b2 - 0x80) * 64 + (b3 - 0x80).
Proof.
  intros H0 H1 H2 H3.
  rewrite land_mask4, !land_maskx, !Z.shiftl_mul_pow2 by lia.
  change (2 ^ 18) with 262144. change (2 ^ 12) with 4096.
  change (2 ^ 6) with 64.
  rewrite (lor_disjoint 18 (b0 mod 8 * 262144) (b1 mod 64 * 4096)).
  2: lia. 2: { change (2^18) with 262144. apply Z_mod_mult. }
  2: { change (2^18) with 262144. Z.div_mod_to_equations; lia. }
  rewrite (lor_disjoint 12 _ (b2 mod 64 * 64)).
  2: lia.
  2: { change (2^12) with 4096.
       replace (b0 mod 8 * 262144 + b1 mod 64 * 4096)
         with ((b0 mod 8 * 64 + b1 mod 64) * 4096) by lia.
       apply Z_mod_mult. }
  2: { change (2^12) with 4096. Z.div_mod_to_equations; lia. }
  rewrite (lor_disjoint 6);
    [ Z.div_mod_to_equations; lia | lia |
    | change (2^6) with 64; Z.div_mod_to_equations; lia].
  change (2 ^ 6) with 64.
  replace (b0 mod 8 * 262144 + b1 mod 64 * 4096 + b2 mod 64 * 64)
    with ((b0 mod 8 * 4096 + b1 mod 64 * 64 + b2 mod 64) * 64) by lia.
  apply Z_mod_mult.
Qed.

Ltac zbool :=
  repeat match goal with
  | |- context [?a <=? ?b] => destruct (Z.leb_spec a b)
  | |- context [?a <? ?b] => destruct (Z.ltb_spec a b)
  | |- context [?a =? ?b] => destruct (Z.eqb_spec a b)
  end; cbn [andb orb negb].

Lemma lor_C0 x : 0 <= x < 32 -> Z.lor 0xC0 x = 0xC0 + x.
Proof. intros H. by apply (lor_disjoint 5). Qed.
Lemma lor_E0 x : 0 <= x < 16 -> Z.lor 0xE0 x = 0xE0 + x.
Proof. intros H. by apply (lor_disjoint 4). Qed.
Lemma lor_F0 x : 0 <= x < 8 -> Z.lor 0xF0 x = 0xF0 + x.
Proof. intros H. by apply (lor_disjoint 3). Qed.
Lemma lor_80 x : 0 <= x < 64 -> Z.lor 0x80 x = 0x80 + x.
Proof. intros H. by apply (lor_disjoint 6). Qed.

Lemma cont_byte r : Z.lor 0x80 (Z.land r maskx) = 0x80 + r mod 64.
Proof.
  rewrite land_maskx, lor_80; [done|]. Z.div_mod_to_equations; lia.
Qed.

Lemma encode2 c0 c1 :
  0xC2 <= byte_of c0 <= 0xDF -> 0x80 <= byte_of c1 <= 0xBF ->
  EncodeRune ((byte_of c0 - 0xC0) * 64 + (byte_of c1 - 0x80))
  = String c0 (String c1 EmptyString).
Proof.
  intros H0 H1. unfold EncodeRune.
  set (r := (byte_of c0 - 0xC0) * 64 + (byte_of c1 - 0x80)).
  assert (Hr : 0x80 <= r <= 0x7FF) by (subst r; lia).
  zbool; try lia.
  rewrite cont_byte, Z.shiftr_div_pow2 by lia. change (2 ^ 6) with 64.
  rewrite lor_C0 by (Z.div_mod_to_equations; lia).
  replace (0xC0 + r / 64) with (byte_of c0)
    by (subst r; Z.div_mod_to_equations; lia).
  replace (0x80 + r mod 64) with (byte_of c1)
    by (subst r; Z.div_mod_to_equations; lia).
  by rewrite !str1_byte_of.
Qed.

Lemma encode3 c0 c1 c2 :
  let r := (byte_of c0 - 0xE0) * 4096 + (byte_of c1 - 0x80) * 64
           + (byte_of c2 - 0x80) in
  0xE0 <= byte_of c0 <= 0xEF -> 0x80 <= byte_of c1 <= 0xBF ->
  0x80 <= byte_of c2 <= 0xBF ->
  0x800 <= r -> ValidRune r = true ->
  EncodeRune r = String c0 (String c1 (String c2 EmptyString)).
Proof.
  intros r H0 H1 H2 Hlo Hv. unfold EncodeRune. rewrite Hv.
  assert (Hr : r <= 0xFFFF) by (subst r; lia).
  zbool; try lia.
  rewrite !cont_byte, !Z.shiftr_div_pow2 by lia.
  change (2 ^ 6) with 64. change (2 ^ 12) with 4096.
  rewrite lor_E0 by (Z.div_mod_to_equations; lia).
  replace (0xE0 + r / 4096) with (byte_of c0)
    by (subst r; Z.div_mod_to_equations; lia).
  replace (0x80 + (r / 64) mod 64) with (byte_of c1)
    by (subst r; Z.div_mod_to_equations; lia).
  replace (0x80 + r mod 64) with (byte_of c2)
    by (subst r; Z.div_mod_to_equations; lia).
  by rewrite !str1_byte_of.
Qed.

Lemma encode4 c0 c1 c2 c3 :
  let r := (byte_of c0 - 0xF0) * 262144 + (byte_of c1 - 0x80) * 4096
           + (byte_of c2 - 0x80) * 64 + (byte_of c3 - 0x80) in
  0xF0 <= byte_of c0 <= 0xF4 -> 0x80 <= byte_of c1 <= 0xBF ->
  0x80 <= byte_of c2 <= 0xBF -> 0x80 <= byte_of c3 <= 0xBF ->
  0x10000 <= r <= 0x10FFFF ->
  EncodeRune r = String c0 (String c1 (String c2 (String c3 EmptyString))).
Proof.
  intros r H0 H1 H2 H3 Hr. unfold EncodeRune, ValidRune.
  unfold surrogateMin, surrogateMax, MaxRune.
  zbool; try lia.
  rewrite !cont_byte, !Z.shiftr_div_pow2 by lia.
  change (2 ^ 6) with 64. change (2 ^ 12) with 4096.
  change (2 ^ 18) with 262144.
  rewrite lor_F0 by (Z.div_mod_to_equations; lia).
  replace (0xF0 + r / 262144) with (byte_of c0)
    by (subst r; Z.div_mod_to_equations; lia).
  replace (0x80 + (r / 4096) mod 64) with (byte_of c1)
    by (subst r; Z.div_mod_to_equations; lia).
  replace (0x80 + (r / 64) mod 64) with (byte_of c2)
    by (subst r; Z.div_mod_to_equations; lia).
  replace (0x80 + r mod 64) with (byte_of c3)
    by (subst r; Z.div_mod_to_equations; lia).
  by rewrite !str1_byte_of.
Qed.

Lemma between_true lo x hi : between lo x hi = true <-> lo <= x <= hi.
Proof. unfold between. rewrite andb_true_iff, !Z.leb_le. done. Qed.

Lemma acceptRange_bounds b0 lo hi :
  acceptRange b0 = (lo, hi) -> 0x80 <= lo /\ hi <= 0xBF.
Proof. unfold acceptRange. zbool; intros [= <- <-]; lia. Qed.

(** A sequence of two to four bytes that [DecodeRuneInString] accepts: the
    rune is valid and above ASCII, it is encoded by the very bytes, and
    what follows them does not matter. *)
Lemma decode_valid c0 s1 r w :
  0x80 <= byte_of c0 ->
  DecodeRuneInString (String c0 s1) = (r, w) -> w <> 1%nat ->
  0x80 <= r /\ ValidRune r = true /\
  ((exists c1 s2,
      w = 2%nat /\ s1 = String c1 s2 /\
      EncodeRune r = String c0 (String c1 EmptyString) /\
      forall T, DecodeRuneInString (String c0 (String c1 T)) = (r, 2%nat)) \/
   (exists c1 c2 s3,
      w = 3%nat /\ s1 = String c1 (String c2 s3) /\
      EncodeRune r = String c0 (String c1 (String c2 EmptyString)) /\
      forall T,
        DecodeRuneInString (String c0 (String c1 (String c2 T))) = (r, 3%nat)) \/
   (exists c1 c2 c3 s4,
      w = 4%nat /\ s1 = String c1 (String c2 (String c3 s4)) /\
      EncodeRune r =
        String c0 (String c1 (String c2 (String c3 EmptyString))) /\
      forall T,
        DecodeRuneInString (String c0 (String c1 (String c2 (String c3 T))))
        = (r, 4%nat))).
Proof.
  intros Hhi. unfold DecodeRuneInString.
  destruct (byte_of c0 <? RuneSelf) eqn:Hself.
  { apply Z.ltb_lt in Hself. unfold RuneSelf in Hself. lia. }
  destruct (between 0xC2 (byte_of c0) 0xF4) eqn:Hb0; cbn [negb];
    [|intros [= <- <-]; done].
  apply between_true in Hb0.
  destruct (acceptRange (byte_of c0)) as [lo hi] eqn:Hacc.
  pose proof (acceptRange_bounds _ _ _ Hacc) as Hlohi.
  destruct s1 as [|c1 s2]; [intros [= <- <-]; done|].
  destruct (between lo (byte_of c1) hi) eqn:Hb1; cbn [negb];
    [|intros [= <- <-]; done].
  pose proof Hb1 as Hb1'. apply between_true in Hb1'.
  destruct (byte_of c0 <=? 0xDF) eqn:H2.
  { (* two bytes *)
    apply Z.leb_le in H2. intros [= <- <-] _.
    rewrite decode2_value by lia.
    split; [lia|]. split.
    { unfold ValidRune, surrogateMin, surrogateMax, MaxRune. zbool; lia. }
    left. exists c1, s2. split; [done|]. split; [done|].
    split; [apply encode2; lia|].
    intros T. rewrite Hb1. cbn [negb]. by rewrite decode2_value by lia. }
  apply Z.leb_gt in H2.
  destruct s2 as [|c2 s3]; [intros [= <- <-]; done|].
  destruct (between 0x80 (byte_of c2) 0xBF) eqn:Hb2; cbn [negb];
    [|intros [= <- <-]; done].
  pose proof Hb2 as Hb2'. apply between_true in Hb2'.
  destruct (byte_of c0 <=? 0xEF) eqn:H3.
  { (* three bytes *)
    apply Z.leb_le in H3. intros [= <- <-] _.
    rewrite decode3_value by lia.
    assert (Hacc' : (byte_of c0 = 0xE0 -> 0xA0 <= byte_of c1) /\
                    (byte_of c0 = 0xED -> byte_of c1 <= 0x9F)).
    { revert Hacc. unfold acceptRange. zbool; intros [= <- <-]; lia. }
    assert (Hv : ValidRune ((byte_of c0 - 224) * 4096
                            + (byte_of c1 - 128) * 64 + (byte_of c2 - 128))
                 = true).
    { unfold ValidRune, surrogateMin, surrogateMax, MaxRune. zbool; lia. }
    split; [lia|]. split; [exact Hv|].
    right; left. exists c1, c2, s3. split; [done|]. split; [done|].
    split; [apply encode3; try lia; exact Hv|].
    intros T. rewrite Hb1, Hb2. cbn [negb]. by rewrite decode3_value by lia. }
  apply Z.leb_gt in H3.
  destruct s3 as [|c3 s4]; [intros [= <- <-]; done|].
  destruct (between 0x80 (byte_of c3) 0xBF) eqn:Hb3; cbn [negb];
    [|intros [= <- <-]; done].
  pose proof Hb3 as Hb3'. apply between_true in Hb3'.
  intros [= <- <-] _.
  rewrite decode4_value by lia.
  assert (Hacc' : (byte_of c0 = 0xF0 -> 0x90 <= byte_of c1) /\
                  (byte_of c0 = 0xF4 -> byte_of c1 <= 0x8F)).
  { revert Hacc. unfold acceptRange. zbool; intros [= <- <-]; lia. }
  split; [lia|]. split.
  { unfold ValidRune, surrogateMin, surrogateMax, MaxRune. zbool; lia. }
  right; right. exists c1, c2, c3, s4. split; [done|]. split; [done|].
  split; [apply encode4; lia|].
  intros T. rewrite Hb1, Hb2, Hb3. cbn [negb]. by rewrite decode4_value by lia.
Qed.

(** *** Strings *)

Lemma append_cons c s t : String c s +:+ t = String c (s +:+ t).
Proof. reflexivity. Qed.

Lemma append_nil_l t : EmptyString +:+ t = t.
Proof. reflexivity. Qed.

Lemma append_nil_r s : s +:+ EmptyString = s.
Proof. induction s as [|c s IH]; [done|]. by rewrite append_cons, IH. Qed.

Lemma append_assoc s t u : (s +:+ t) +:+ u = s +:+ (t +:+ u).
Proof. induction s as [|c s IH]; [done|]. by rewrite !append_cons, IH. Qed.

Lemma length_append s t :
  String.length (s +:+ t) = (String.length s + String.length t)%nat.
Proof.
  induction s as [|c s IH]; [done|]. rewrite append_cons. simpl. by rewrite IH.
Qed.

Lemma substring_all m T :
  (String.length T <= m)%nat -> String.substring 0 m T = T.
Proof.
  revert m. induction T as [|c T IH]; intros [|m] Hm; simpl in *;
    try done; try lia.
  rewrite IH by lia. done.
Qed.

Lemma substring_skip a T m :
  (String.length T <= m)%nat ->
  String.substring (String.length a) m (a +:+ T) = T.
Proof.
  intros Hm. induction a as [|c a IH]; [by apply substring_all|].
  rewrite append_cons. simpl. exact IH.
Qed.

(** *** Hexadecimal digits *)

Lemma unhex_hexDigit n :
  0 <= n < 16 ->
  exists c, hexDigit n = String c EmptyString /\ unhex c = Some n.
Proof.
  intros Hn. rewrite <- (Z2Nat.id n) by lia.
  assert (Hm : (Z.to_nat n < 16)%nat) by lia.
  generalize dependent (Z.to_nat n). clear Hn. intros m Hm.
  do 16 (destruct m as [|m]; [eexists; split; reflexivity|]).
  lia.
Qed.

Lemma readHex_hexN n : forall r v T,
  0 <= r ->
  readHex n v (hexN n r +:+ T) = Some (v * 16 ^ Z.of_nat n + r mod 16 ^ Z.of_nat n, T).
Proof.
  induction n as [|k IH]; intros r v T Hr.
  - simpl. rewrite append_nil_l, Z.mod_1_r. do 2 f_equal. lia.
  - cbn [hexN readHex].
    set (x := Z.land (Z.shiftr r (4 * Z.of_nat k)) 0xF).
    assert (Hx : x = (r / 16 ^ Z.of_nat k) mod 16).
    { subst x. rewrite (land_mask 4) by lia.
      rewrite Z.shiftr_div_pow2 by lia.
      rewrite Z.pow_mul_r by lia. done. }
    assert (Hx16 : 0 <= x < 16) by (rewrite Hx; apply Z.mod_pos_bound; lia).
    destruct (unhex_hexDigit x Hx16) as (c & Hc & Hun).
    rewrite Hc, append_assoc, append_cons, append_nil_l, Hun.
    rewrite IH by done. do 2 f_equal.
    rewrite Z.shiftl_mul_pow2 by lia.
    rewrite (lor_disjoint 4); [|lia|apply Z_mod_mult|done].
    rewrite Nat2Z.inj_succ, Z.pow_succ_r by lia.
    rewrite (Z.mul_comm 16 (16 ^ Z.of_nat k)).
    rewrite Z.rem_mul_r by lia. rewrite <- Hx.
    change (2 ^ 4) with 16. lia.
Qed.

Lemma readHex_hexN_small n r T :
  0 <= r < 16 ^ Z.of_nat n ->
  readHex n 0 (hexN n r +:+ T) = Some (r, T).
Proof.
  intros Hr. rewrite readHex_hexN by lia.
  rewrite Z.mod_small by lia. do 2 f_equal.
Qed.

Lemma hex2_hexN b : 0 <= b < 256 -> hex2 b = hexN 2 b.
Proof.
  intros Hb. unfold hex2. cbn [hexN]. rewrite append_nil_r.
  change (4 * Z.of_nat 1) with 4. change (4 * Z.of_nat 0) with 0.
  rewrite Z.shiftr_0_r. do 2 f_equal.
  change 0xF with (2 ^ 4 - 1). rewrite land_mask by lia.
  rewrite Z.shiftr_div_pow2 by lia. change (2 ^ 4) with 16.
  symmetry. apply Z.mod_small. Z.div_mod_to_equations; lia.
Qed.

Lemma hex2_unhex b T :
  0 <= b < 256 -> readHex 2 0 (hex2 b +:+ T) = Some (b, T).
Proof.
  intros Hb. rewrite hex2_hexN by done.
  apply readHex_hexN_small. simpl. lia.
Qed.

(** *** One rune at a time *)

Lemma UnquoteChar_x rest :
  UnquoteChar (String "\" (String "x" rest)) "034"%char =
  match readHex 2 0 rest with
  | None => None
  | Some (v, rest') => Some (v, false, rest')
  end.
Proof. reflexivity. Qed.

Lemma UnquoteChar_u rest :
  UnquoteChar (String "\" (String "u" rest)) "034"%char =
  match readHex 4 0 rest with
  | None => None
  | Some (v, rest') =>
      if negb (ValidRune v) then None else Some (v, true, rest')
  end.
Proof. reflexivity. Qed.

Lemma UnquoteChar_U rest :
  UnquoteChar (String "\" (String "U" rest)) "034"%char =
  match readHex 8 0 rest with
  | None => None
  | Some (v, rest') =>
      if negb (ValidRune v) then None else Some (v, true, rest')
  end.
Proof. reflexivity. Qed.

(** A stray byte, written as a [\x] escape. *)
Lemma unquotesTo_stray c :
  unquotesTo ("\x" +:+ hex2 (byte_of c)) (String c EmptyString).
Proof.
  split.
  { eexists _, _. split; [reflexivity|]. split; discriminate. }
  intros T. exists (byte_of c), false.
  rewrite append_assoc. change ("\x" +:+ ?s) with (String "\" (String "x" s)).
  rewrite UnquoteChar_x, hex2_unhex by apply byte_of_range.
  split; [done|]. rewrite orb_true_r. apply str1_byte_of.
Qed.

(** A rune above ASCII, written as its bytes. *)
Lemma unquotesTo_raw c0 btail r :
  0x80 <= byte_of c0 -> 0x80 <= r ->
  EncodeRune r = String c0 btail ->
  (forall T, DecodeRuneInString (String c0 btail +:+ T)
             = (r, String.length (String c0 btail))) ->
  unquotesTo (String c0 btail) (String c0 btail).
Proof.
  intros Hc0 Hr Henc Hdec.
  assert (Hne : forall d, byte_of d < 0x80 -> c0 <> d).
  { intros d Hd ->. lia. }
  split.
  { eexists _, _. split; [reflexivity|].
    split; apply Hne; vm_compute; done. }
  intros T. exists r, true. split.
  - specialize (Hdec T). rewrite append_cons in *.
    unfold UnquoteChar.
    rewrite bool_decide_eq_false_2 by (apply Hne; vm_compute; done).
    unfold RuneSelf. destruct (Z.leb_spec 0x80 (byte_of c0)); [|lia].
    rewrite Hdec. do 2 f_equal.
    rewrite <- append_cons. apply substring_skip.
    rewrite length_append. lia.
  - unfold RuneSelf. destruct (Z.ltb_spec r 0x80); [lia|]. done.
Qed.

(** A rune above ASCII, written as a [\u] or [\U] escape. *)
Lemma unquotesTo_u r :
  0x80 <= r < 0x10000 -> ValidRune r = true ->
  unquotesTo ("\u" +:+ hexN 4 r) (EncodeRune r).
Proof.
  intros Hr Hv. split.
  { eexists _, _. split; [reflexivity|]. split; discriminate. }
  intros T. exists r, true.
  rewrite append_assoc. change ("\u" +:+ ?s) with (String "\" (String "u" s)).
  rewrite UnquoteChar_u, readHex_hexN_small, Hv by (simpl; lia).
  split; [done|].
  unfold RuneSelf. destruct (Z.ltb_spec r 0x80); [lia|]. done.
Qed.

Lemma unquotesTo_U r :
  0x10000 <= r -> ValidRune r = true ->
  unquotesTo ("\U" +:+ hexN 8 r) (EncodeRune r).
Proof.
  intros Hr Hv. split.
  { eexists _, _. split; [reflexivity|]. split; discriminate. }
  assert (Hmax : r <= 0x10FFFF).
  { revert Hv. unfold ValidRune, surrogateMin, surrogateMax, MaxRune.
    zbool; (done || lia). }
  intros T. exists r, true.
  rewrite append_assoc. change ("\U" +:+ ?s) with (String "\" (String "U" s)).
  rewrite UnquoteChar_U, readHex_hexN_small, Hv by (simpl; lia).
  split; [done|].
  unfold RuneSelf. destruct (Z.ltb_spec r 0x80); [lia|]. done.
Qed.

Section WithTable.

Variable tbl : Z -> bool.

(** An ASCII character: all 128 of them, one by one. *)
Lemma unquotesTo_ascii c :
  byte_of c < 0x80 ->
  unquotesTo (appendEscapedRune tbl (byte_of c)) (String c EmptyString).
Proof.
  destruct c as [b0 b1 b2 b3 b4 b5 b6 b7].
  destruct b7; [intros H; exfalso; revert H;
                destruct b0, b1, b2, b3, b4, b5, b6; vm_compute; congruence|].
  intros _.
  destruct b0, b1, b2, b3, b4, b5, b6;
    (split;
     [eexists _, _; split; [reflexivity|split; discriminate]
     |intros T; eexists _, _; split; reflexivity]).
Qed.

Lemma appendEscapedRune_high r :
  0x80 <= r -> ValidRune r = true ->
  appendEscapedRune tbl r =
  if IsPrint tbl r then EncodeRune r
  else if r <? 0x10000 then "\u" +:+ hexN 4 r else "\U" +:+ hexN 8 r.
Proof.
  intros Hr Hv. unfold appendEscapedRune. rewrite Hv.
  destruct (IsPrint tbl r); zbool; (done || lia).
Qed.

Lemma unquotesTo_high c0 btail r :
  0x80 <= byte_of c0 -> 0x80 <= r -> ValidRune r = true ->
  EncodeRune r = String c0 btail ->
  (forall T, DecodeRuneInString (String c0 btail +:+ T)
             = (r, String.length (String c0 btail))) ->
  unquotesTo (appendEscapedRune tbl r) (String c0 btail).
Proof.
  intros Hc0 Hr Hv Henc Hdec. rewrite appendEscapedRune_high by done.
  destruct (IsPrint tbl r).
  - rewrite Henc. by apply (unquotesTo_raw c0 btail r).
  - rewrite <- Henc. destruct (Z.ltb_spec r 0x10000).
    + apply unquotesTo_u; [lia|done].
    + apply unquotesTo_U; [lia|done].
Qed.

End WithTable.

Section RoundTrip.

Variable tbl : Z -> bool.

Lemma decode_width1 c0 s1 r :
  DecodeRuneInString (String c0 s1) = (r, 1%nat) ->
  0x80 <= byte_of c0 -> r = RuneError.
Proof.
  intros Hdec Hc0.
  unfold DecodeRuneInString in Hdec.
  destruct (Z.ltb_spec (byte_of c0) RuneSelf) as [Hlt|_];
    [unfold RuneSelf in Hlt; lia|].
  repeat match type of Hdec with
  | (if ?c then _ else _) = _ => destruct c
  | (let '(_, _) := ?p in _) = _ => destruct p
  | match ?s with EmptyString => _ | String _ _ => _ end = _ => destruct s
  end; by injection Hdec.
Qed.

(** The first rune of a string that is not empty: what [quoteRunes] writes
    for it is read back as its bytes. *)
Lemma quoteRunes_step c0 s1 :
  exists piece bytes rest,
    String c0 s1 = bytes +:+ rest /\
    (0 < String.length bytes)%nat /\
    quoteRunes tbl (String c0 s1) = piece +:+ quoteRunes tbl rest /\
    unquotesTo piece bytes.
Proof.
  cbn [quoteRunes].
  destruct (Z.ltb_spec (byte_of c0) RuneSelf) as [Hlt|Hge]; unfold RuneSelf in *.
  { (* ASCII *)
    exists (appendEscapedRune tbl (byte_of c0)), (String c0 EmptyString), s1.
    split; [done|]. split; [simpl; lia|]. split.
    - unfold RuneError. destruct (Z.eqb_spec (byte_of c0) 0xFFFD); [lia|].
      done.
    - by apply unquotesTo_ascii. }
  destruct (DecodeRuneInString (String c0 s1)) as [r w] eqn:Hdec.
  destruct (decide (w = 1%nat)) as [->|Hw].
  { (* a stray byte *)
    pose proof (decode_width1 _ _ _ Hdec Hge) as ->.
    exists ("\x" +:+ hex2 (byte_of c0)), (String c0 EmptyString), s1.
    split; [done|]. split; [simpl; lia|]. split; [done|].
    apply unquotesTo_stray. }
  destruct (decode_valid _ _ _ _ Hge Hdec Hw) as (Hr & Hv & Hcases).
  assert (Hnot1 : Nat.eqb w 1 && (r =? RuneError) = false).
  { destruct (Nat.eqb_spec w 1); [done|]. done. }
  rewrite Hnot1.
  destruct Hcases as [(c1 & s2 & -> & -> & Henc & Hd)
                     |[(c1 & c2 & s3 & -> & -> & Henc & Hd)
                      |(c1 & c2 & c3 & s4 & -> & -> & Henc & Hd)]].
  - exists (appendEscapedRune tbl r), (String c0 (String c1 EmptyString)), s2.
    split; [done|]. split; [simpl; lia|]. split; [done|].
    by apply (unquotesTo_high tbl c0 _ r).
  - exists (appendEscapedRune tbl r),
           (String c0 (String c1 (String c2 EmptyString))), s3.
    split; [done|]. split; [simpl; lia|]. split; [done|].
    by apply (unquotesTo_high tbl c0 _ r).
  - exists (appendEscapedRune tbl r),
           (String c0 (String c1 (String c2 (String c3 EmptyString)))), s4.
    split; [done|]. split; [simpl; lia|]. split; [done|].
    by apply (unquotesTo_high tbl c0 _ r).
Qed.

(** The loop of [Unquote] on what the loop of [Quote] wrote, followed by
    the closing quote. *)
Lemma unquoteLoop_quoteRunes n : forall s fuel buf,
  (String.length s <= n)%nat ->
  (String.length (quoteRunes tbl s) < fuel)%nat ->
  unquoteLoop fuel (quoteRunes tbl s +:+ dquote) buf = Some (buf +:+ s).
Proof.
  induction n as [|n IH]; intros s fuel buf Hlen Hfuel.
  - destruct s; [|simpl in Hlen; lia].
    destruct fuel; [simpl in Hfuel; lia|].
    simpl. by rewrite append_nil_r.
  - destruct s as [|c0 s1].
    { destruct fuel; [simpl in Hfuel; lia|]. simpl. by rewrite append_nil_r. }
    destruct (quoteRunes_step c0 s1)
      as (piece & bytes & rest & Hs & Hbytes & Hq & (p0 & ptail & -> & Hp0 & Hnl)
          & Hun).
    rewrite Hq in *. rewrite Hs.
    assert (Hrest : (String.length rest <= n)%nat).
    { apply (f_equal String.length) in Hs. rewrite length_append in Hs.
      simpl in Hs, Hlen. lia. }
    rewrite length_append in Hfuel.
    destruct fuel as [|fuel]; [lia|].
    rewrite append_assoc.
    destruct (Hun (quoteRunes tbl rest +:+ dquote)) as (r & mb & Hchar & Hout).
    rewrite append_cons in *. cbn [unquoteLoop].
    rewrite (bool_decide_eq_false_2 _ Hp0), Hchar.
    rewrite (bool_decide_eq_false_2 _ Hnl), Hout.
    rewrite IH; [by rewrite append_assoc | done | simpl in Hfuel; lia].
Qed.

(** Reading back a quoted string gives the string. *)
Lemma Unquote_Quote s : Unquote (Quote tbl s) = Some s.
Proof.
  unfold Quote, Unquote, dquote. rewrite append_cons, append_nil_l.
  rewrite bool_decide_eq_true_2 by done.
  rewrite (unquoteLoop_quoteRunes (String.length s)); [done|lia|].
  rewrite length_append. simpl. lia.
Qed.

End RoundTrip.

End QuoteFacts.

(** ** The rendering of the arguments *)

Section Rendering.

Import constant types ir walk.

Variable h : Host.

(** A decimal integer literal reads back as the integer. *)
Lemma parseInt_intVal_String z : parseInt (intVal_String z) = Some z.
Proof.
  unfold parseInt, intVal_String.
  rewrite NilZero.isi.
  - by rewrite DecimalZ.of_to.
  - destruct z; simpl; try discriminate.
    intros [= H]. by apply DecimalPos.Unsigned.to_uint_nonnil in H.
  - destruct z; simpl; try discriminate.
    intros [= H]. by apply DecimalPos.Unsigned.to_uint_nonnil in H.
Qed.

Lemma argExpr_None v :
  argExpr h v = None <->
  Value_Kind v <> String /\ Value_Kind v <> Int /\
  Value_Kind v <> Float /\ Value_Kind v <> Bool.
Proof.
  destruct v; simpl; (split; [intros H | intros (Hs & Hi & Hf & Hb)]);
    done.
Qed.

Lemma renderArgs_unsupported args : forall acc,
  Forall (fun a => Node_Op a = OLITERAL) args ->
  Exists unsupportedLiteral args ->
  renderArgs h args acc = Ret None.
Proof.
  induction args as [|a rest IH]; intros acc Hlit Hex; [by inversion Hex|].
  inversion Hlit as [|? ? Ha Hrest]; subst.
  destruct a as [pos typ tc v| |]; try done. simpl.
  destruct (argExpr h v) as [e|] eqn:He; [|done].
  apply IH; [done|].
  inversion Hex as [? ? Hun|]; subst; [|done].
  destruct Hun as (v' & Hv' & Hk). simpl in Hv'. injection Hv' as <-.
  apply argExpr_None in Hk. congruence.
Qed.


End Rendering.

Section RenderingExamples.

Import constant types ir walk.


(** The rendered literals of the examples. *)
Example quote_hello :
  strconv.Quote (fun _ => true) "HELLO WORLD" =
  dquote +:+ "HELLO WORLD" +:+ dquote.
Proof. reflexivity. Qed.

Example quote_escapes :
  strconv.Quote (fun _ => true)
    ("a" +:+ dquote +:+ "\" +:+ nl +:+ str1 0xFF +:+ str1 1) =
  dquote +:+ "a\" +:+ dquote +:+ "\\\n\xff\x01" +:+ dquote.
Proof. reflexivity. Qed.

Example render_negative : intVal_String (-100) = "-100".
Proof. reflexivity. Qed.

End RenderingExamples.


(** ** Further properties of [allArgsConstant] and [generateHelperProgram] *)

Section MoreEligibility.

Import constant types ir walk.

(** X1: An argument that is not a literal disqualifies the call, whatever the
    other arguments and the parameters are. *)
Theorem allArgsConstant_rejects_nonliteral args params :
  Exists (fun a => Node_Op a <> OLITERAL) args ->
  allArgsConstant args params = false.
Proof.
  intros Hex. destruct (allArgsConstant args params) eqn:Hel; [|done].
  apply allArgsConstant_eligible in Hel. exfalso.
  induction Hel as [|a p args' params' (k & (Hop & _) & _) _ IH];
    inversion Hex; subst; auto.
Qed.

Lemma allArgsConstant_rejects_nonliteral_witness :
  Exists (fun a => Node_Op a <> OLITERAL)
         [ex.intLit 10; Name 12 (Types TINT) 1 "x"] /\
  allArgsConstant [ex.intLit 10; Name 12 (Types TINT) 1 "x"]
                  (Params ex.addPure) = false.
Proof.
  assert (H : Exists (fun a => Node_Op a <> OLITERAL)
                     [ex.intLit 10; Name 12 (Types TINT) 1 "x"]).
  { right. left. discriminate. }
  split; [exact H | exact (allArgsConstant_rejects_nonliteral _ _ H)].
Defined.

(** X2: There is no widening across kinds: a literal whose kind is not the one
    of its parameter's class disqualifies the call. *)
Theorem allArgsConstant_rejects_mismatch args params i a p v :
  args !! i = Some a -> params !! i = Some p ->
  Node_Val a = Some v ->
  kindRejected (Value_Kind v) (Field_Type p) ->
  allArgsConstant args params = false.
Proof.
  intros Ha Hp Hv Hrej.
  destruct (allArgsConstant args params) eqn:Hel; [|done].
  apply allArgsConstant_eligible in Hel. exfalso.
  destruct (Forall2_lookup_lr _ _ _ _ _ _ Hel Ha Hp)
    as (k & (_ & (v' & Hv' & <-) & _) & Hs & Hi & Hf & Hb).
  rewrite Hv in Hv'. injection Hv' as <-.
  destruct Hrej as [[H1 H2]|[[H1 H2]|[[H1 H2]|[H1 H2]]]]; auto.
Qed.

Lemma allArgsConstant_rejects_mismatch_witness :
  let args := [ex.strLit "x"; ex.intLit 3] in
  let params := [ex.param (Types TSTRING); ex.param (Types TFLOAT64)] in
  args !! 1%nat = Some (ex.intLit 3) /\
  params !! 1%nat = Some (ex.param (Types TFLOAT64)) /\
  Node_Val (ex.intLit 3) = Some (intVal 3) /\
  kindRejected (Value_Kind (intVal 3)) (Field_Type (ex.param (Types TFLOAT64))) /\
  allArgsConstant args params = false.
Proof.
  intros args params.
  assert (H4 : kindRejected (Value_Kind (intVal 3))
                 (Field_Type (ex.param (Types TFLOAT64)))).
  { right. right. left. split; [reflexivity | discriminate]. }
  split; [reflexivity|]. split; [reflexivity|]. split; [reflexivity|].
  split; [exact H4|].
  exact (allArgsConstant_rejects_mismatch args params 1%nat (ex.intLit 3)
           (ex.param (Types TFLOAT64)) (intVal 3) eq_refl eq_refl eq_refl H4).
Defined.

Variable h : Host.

Lemma literal_supported_or_not a :
  Node_Op a = OLITERAL ->
  unsupportedLiteral a \/ exists k, supportedLiteral a k.
Proof.
  destruct a as [pos typ tc v| |]; try done. intros _.
  destruct v.
  1,6: left; eexists; split; [reflexivity|]; repeat split; discriminate.
  all: right; eexists; split; [reflexivity|];
    (split; [eexists; split; reflexivity|]); auto.
Qed.

Lemma literals_supported_or_not args :
  Forall (fun a => Node_Op a = OLITERAL) args ->
  Exists unsupportedLiteral args \/
  Forall (fun a => exists k, supportedLiteral a k) args.
Proof.
  induction 1 as [|a l Hop _ IH]; [right; constructor|].
  destruct (literal_supported_or_not a Hop) as [Hun|Hsup]; [left; by left|].
  destruct IH as [IH|IH]; [left; by right | right; by constructor].
Qed.

(** X3: On literal arguments [generateHelperProgram] does not panic: it
    returns the empty string exactly when one of the arguments is of an
    unsupported kind, and otherwise the program text for the rendered
    arguments. *)
Theorem generateHelperProgram_on_literals fn args :
  Forall (fun a => Node_Op a = OLITERAL) args ->
  (generateHelperProgram h fn args = Ret EmptyString <->
   Exists unsupportedLiteral args) /\
  (~ Exists unsupportedLiteral args ->
   exists exprs,
     Forall2 (rendersAs h) args exprs /\
     generateHelperProgram h fn args =
     Ret (programText (Sym_Pkg_Path fn) (Sym_Name fn) exprs)).
Proof.
  intros Hlit.
  destruct (literals_supported_or_not args Hlit) as [Hex|Hall].
  - assert (Hgen : generateHelperProgram h fn args = Ret EmptyString).
    { unfold generateHelperProgram. by rewrite renderArgs_unsupported. }
    split; [done|]. by intros Hno.
  - destruct (renderArgs_Some h args [] Hall) as (exprs & Hren & Hr).
    assert (Hgen : generateHelperProgram h fn args =
                   Ret (programText (Sym_Pkg_Path fn) (Sym_Name fn) exprs)).
    { unfold generateHelperProgram. by rewrite Hr. }
    assert (Hno : ~ Exists unsupportedLiteral args).
    { intros Hex. rewrite Exists_exists in Hex.
      destruct Hex as (a & Hin & v & Hv & H1 & H2 & H3 & H4).
      rewrite Forall_forall in Hall.
      destruct (Hall a Hin) as (k & _ & (v' & Hv' & <-) & Hk).
      rewrite Hv in Hv'. injection Hv' as <-.
      destruct Hk as [|[|[|]]]; done. }
    split; [|intros _; by exists exprs].
    split; [|by intros Hex]. rewrite Hgen. intros Hempty.
    injection Hempty as Hempty. by apply programText_not_empty in Hempty.
Qed.

End MoreEligibility.


(** ** Further properties of [executeHelperProgram] *)

Section MoreExecution.

Import constant types ir walk.

Variable h : Host.

(** The go binary chosen on a file system. *)
Lemma goBinary_files w1 w2 :
  files w1 = files w2 -> goBinary h w1 = goBinary h w2.
Proof. intros Hf. unfold goBinary, os.Stat. by rewrite Hf. Qed.

(** The run of [executeHelperProgram] when its scratch directory is made
    and its source file written. *)
Lemma executeHelperProgram_ready src w d :
  scratchDir h w = Some d ->
  writable h (<[d := Dir]> (files w)) (filepath.Join [d; "main.go"]) = true ->
  let mainFile := filepath.Join [d; "main.go"] in
  let fs := <[mainFile := Regular src]> (<[d := Dir]> (files w)) in
  let bin := goBinary h (set_files w fs) in
  let c := exec.set_Env (exec.Command bin ["run"; mainFile]) (helperEnv h w) in
  let run := runChild h (exec.set_Env c (exec.childEnviron c)) fs in
  executeHelperProgram h src w =
  (capturedOutput (fst run),
   {| environ := environ w;
      files := filter (fun kv => os.within d kv.1 = false) (snd run);
      base_Pos := base_Pos w;
      printed := printed w ++
                 match fst run with
                 | StartFailed msg =>
                     if 1 <? LowerM h
                     then ["helper program error: " +:+ msg +:+ nl +:+
                           "stderr: " +:+ EmptyString +:+ nl]
                     else []
                 | Exited code out err =>
                     if code =? 0 then []
                     else if 1 <? LowerM h
                     then ["helper program error: " +:+
                           ("exit status " +:+ intVal_String code) +:+ nl +:+
                           "stderr: " +:+ err +:+ nl]
                     else []
                 end;
      spawned := spawned w ++ [(c, fst run)];
      rand := S (rand w) |}).
Proof.
  intros Hd Hw mainFile fs bin c run.
  unfold executeHelperProgram. rewrite (MkdirTemp_Some h w d Hd).
  unfold runInDir, os.WriteFile. cbn [files set_files drawn]. rewrite Hw.
  unfold exec.Run. cbn [files set_files drawn].
  fold mainFile. fold fs.
  rewrite (goBinary_files _ (set_files w fs)) by reflexivity.
  fold bin.
  change (exec.set_Env (exec.Command bin ["run"; mainFile]) (helperEnv h _))
    with c.
  fold run. destruct run as [o fs'] eqn:Hrun. cbn [fst snd].
  destruct o as [msg|code out err]; cbn [capturedOutput].
  - destruct (1 <? LowerM h); unfold os.RemoveAll, Printf, set_files; cbn;
      by rewrite ?app_nil_r.
  - destruct (code =? 0); [|destruct (1 <? LowerM h)];
      unfold os.RemoveAll, Printf, set_files; cbn; by rewrite ?app_nil_r.
Qed.


Lemma executeHelperProgram_no_dir src w :
  scratchDir h w = None ->
  executeHelperProgram h src w = (EmptyString, drawn w).
Proof.
  unfold scratchDir, executeHelperProgram, os.MkdirTemp.
  destruct (os.prefixAndSuffix _) as [pre suf].
  destruct (tempRandom h (rand w) (files w)) as [rnd|]; [|done].
  by destruct (files w !! _).
Qed.

Lemma executeHelperProgram_not_written src w d :
  scratchDir h w = Some d ->
  writable h (<[d := Dir]> (files w)) (filepath.Join [d; "main.go"]) = false ->
  executeHelperProgram h src w =
  (EmptyString,
   set_files (drawn w) (filter (fun kv => os.within d kv.1 = false)
                               (<[d := Dir]> (files w)))).
Proof.
  intros Hd Hw.
  unfold executeHelperProgram. rewrite (MkdirTemp_Some h w d Hd).
  unfold runInDir, os.WriteFile. cbn [files set_files drawn]. by rewrite Hw.
Qed.

(** The three ways [executeHelperProgram] goes. *)
Lemma workspace_cases w :
  scratchDir h w = None \/
  (exists d, scratchDir h w = Some d /\
     writable h (<[d := Dir]> (files w)) (filepath.Join [d; "main.go"]) = false) \/
  workspaceReady h w.
Proof.
  destruct (scratchDir h w) as [d|] eqn:Hd; [|by left]. right.
  destruct (writable h (<[d := Dir]> (files w)) (filepath.Join [d; "main.go"]))
    eqn:Hw; [right; by exists d | left; by exists d].
Qed.

Lemma workspaceReady_untrace n msg w :
  workspaceReady h (trace h n msg w) -> workspaceReady h w.
Proof.
  intros (d & Hd & Hw). exists d. unfold scratchDir in *.
  by rewrite MkdirTemp_trace, trace_files in *.
Qed.

(** *** Paths *)

Lemma append_nonempty_l a b : a <> EmptyString -> a +:+ b <> EmptyString.
Proof. by destruct a. Qed.

Lemma joinPath_nonempty dir name : os.joinPath dir name <> EmptyString.
Proof.
  unfold os.joinPath. destruct (os.endsWithSlash dir) eqn:He.
  - apply append_nonempty_l. by destruct dir.
  - by destruct dir.
Qed.

Lemma scratchDir_nonempty w d : scratchDir h w = Some d -> d <> EmptyString.
Proof.
  unfold scratchDir, os.MkdirTemp.
  destruct (os.prefixAndSuffix _) as [pre suf].
  destruct (tempRandom h (rand w) (files w)) as [rnd|]; [|done].
  destruct (files w !! _); [done|]. intros [= <-]. apply joinPath_nonempty.
Qed.

Lemma prefix_append a b : String.prefix a (a +:+ b) = true.
Proof.
  induction a as [|c a IH]; [by destruct b|].
  rewrite append_cons. simpl. by destruct (ascii_dec c c).
Qed.

Lemma Join_in_dir d name :
  d <> EmptyString -> name <> EmptyString ->
  filepath.Join [d; name] = d +:+ "/" +:+ name.
Proof.
  intros Hd Hn. unfold filepath.Join.
  rewrite filter_cons_True by done. rewrite filter_cons_True by done.
  simpl. done.
Qed.

(** The source file lies in the scratch directory. *)
Lemma mainFile_within d :
  d <> EmptyString -> os.within d (filepath.Join [d; "main.go"]) = true.
Proof.
  intros Hd. rewrite Join_in_dir by done. unfold os.within.
  rewrite <- append_assoc, prefix_append. apply orb_true_r.
Qed.

Lemma filter_outside_lookup d p (m : gmap string File) :
  os.within d p = false ->
  filter (fun kv => os.within d kv.1 = false) m !! p = m !! p.
Proof.
  intros Hp. destruct (m !! p) as [x|] eqn:Hm.
  - by apply map_lookup_filter_Some.
  - apply map_lookup_filter_None. by left.
Qed.

Lemma outside_not_scratch d p :
  d <> EmptyString -> os.within d p = false ->
  p <> d /\ p <> filepath.Join [d; "main.go"].
Proof.
  intros Hd Hp. split.
  - intros ->. unfold os.within in Hp.
    by rewrite bool_decide_eq_true_2 in Hp.
  - intros ->. by rewrite mainFile_within in Hp.
Qed.


(** *** The child process *)

(** X4: When the scratch directory is made and the source file written, the
    toolchain is run once, as the go binary with the arguments run and the
    path of main.go in the scratch directory, on a file system in which
    that file holds the program text; what [executeHelperProgram] returns
    is what that child wrote to its standard output if it exited with
    status 0, and nothing otherwise. *)
Theorem toolchain_invocation src w d :
  scratchDir h w = Some d ->
  writable h (<[d := Dir]> (files w)) (filepath.Join [d; "main.go"]) = true ->
  let mainFile := filepath.Join [d; "main.go"] in
  exists bin o,
    (bin = "go" \/
     (GOROOT h <> EmptyString /\ bin = filepath.Join [GOROOT h; "bin"; "go"])) /\
    spawned (snd (executeHelperProgram h src w)) =
      spawned w ++ [({| Cmd_Path := bin; Cmd_Args := [bin; "run"; mainFile];
                        Cmd_Env := helperEnv h w |}, o)] /\
    o = fst (runChild h
               {| Cmd_Path := bin; Cmd_Args := [bin; "run"; mainFile];
                  Cmd_Env := exec.dedupEnv (helperEnv h w) |}
               (<[mainFile := Regular src]> (<[d := Dir]> (files w)))) /\
    fst (executeHelperProgram h src w) = capturedOutput o.
Proof.
  intros Hd Hw mainFile.
  rewrite (executeHelperProgram_ready src w d Hd Hw). cbn [fst snd spawned].
  eexists _, _. split; [|split; [reflexivity|split; reflexivity]].
  unfold goBinary. case_bool_decide as Hroot; [|by left].
  destruct (os.Stat _ _); [right; done | by left].
Qed.

(** X5: With a GOROOT whose go binary is on the file system, the child that is
    run is that binary; without a GOROOT it is the go of the PATH. *)
Theorem toolchain_choice src w c o :
  (c, o) ∈ spawned (snd (executeHelperProgram h src w)) ->
  (c, o) ∉ spawned w ->
  (GOROOT h = EmptyString -> Cmd_Path c = "go") /\
  (GOROOT h <> EmptyString ->
   is_Some (files w !! filepath.Join [GOROOT h; "bin"; "go"]) ->
   Cmd_Path c = filepath.Join [GOROOT h; "bin"; "go"]).
Proof.
  intros Hin Hnew.
  destruct (workspace_cases w) as [Hno|[(d & Hd & Hw)|(d & Hd & Hw)]].
  - rewrite (executeHelperProgram_no_dir src w Hno) in Hin. done.
  - rewrite (executeHelperProgram_not_written src w d Hd Hw) in Hin. done.
  - rewrite (executeHelperProgram_ready src w d Hd Hw) in Hin.
    cbn [snd spawned] in Hin.
    rewrite elem_of_app, list_elem_of_singleton in Hin.
    destruct Hin as [Hin|[= -> _]]; [done|]. cbn [Cmd_Path exec.set_Env
      exec.Command].
    unfold goBinary. split.
    + intros ->. by rewrite bool_decide_eq_false_2 by (intros H; by apply H).
    + intros Hroot Hbin. rewrite (bool_decide_eq_true_2 _ Hroot).
      unfold os.Stat. cbn [files set_files drawn].
      rewrite bool_decide_eq_true_2; [done|].
      rewrite !lookup_insert_is_Some. destruct Hbin as [x Hx].
      destruct (decide (filepath.Join [d; "main.go"]
                        = filepath.Join [GOROOT h; "bin"; "go"])); [by left|].
      right. split; [done|].
      destruct (decide (d = filepath.Join [GOROOT h; "bin"; "go"]));
        [by left|]. right. eauto.
Qed.

(** *** The file system *)

(** The frame of [executeHelperProgram]. *)
Lemma executeHelperProgram_frame src w d p :
  scratchDir h w = Some d ->
  os.within d p = false ->
  (forall c fs, snd (runChild h c fs) !! p = fs !! p) ->
  files (snd (executeHelperProgram h src w)) !! p = files w !! p.
Proof.
  intros Hd Hp Hchild.
  pose proof (scratchDir_nonempty w d Hd) as Hne.
  destruct (outside_not_scratch d p Hne Hp) as [Hpd Hpm].
  destruct (writable h (<[d := Dir]> (files w)) (filepath.Join [d; "main.go"]))
    eqn:Hw.
  - rewrite (executeHelperProgram_ready src w d Hd Hw). cbn [snd files].
    rewrite filter_outside_lookup by done. rewrite Hchild.
    by rewrite !lookup_insert_ne.
  - rewrite (executeHelperProgram_not_written src w d Hd Hw).
    cbn [snd files set_files].
    rewrite filter_outside_lookup by done. by rewrite lookup_insert_ne.
Qed.

(** With a toolchain that leaves the file system alone, and nothing below
    the name of the scratch directory beforehand, [executeHelperProgram]
    gives the file system back as it was. *)
Lemma executeHelperProgram_restores src w :
  (forall c fs, snd (runChild h c fs) = fs) ->
  (forall d p, scratchDir h w = Some d -> os.within d p = true ->
               files w !! p = None) ->
  files (snd (executeHelperProgram h src w)) = files w.
Proof.
  intros Hchild Hclean.
  destruct (scratchDir h w) as [d|] eqn:Hd;
    [|by rewrite (executeHelperProgram_no_dir src w Hd)].
  apply map_eq. intros p. destruct (os.within d p) eqn:Hp.
  - rewrite (executeHelperProgram_cleanup h src w d p Hd Hp).
    symmetry. by apply (Hclean d).
  - apply (executeHelperProgram_frame src w d p Hd Hp).
    intros c fs. by rewrite Hchild.
Qed.

(** X7: A path outside the scratch directory that the toolchain leaves alone is
    after [executeHelperProgram] what it was before. *)
Theorem files_outside_scratch_kept src w d p :
  scratchDir h w = Some d ->
  os.within d p = false ->
  (forall c fs, snd (runChild h c fs) !! p = fs !! p) ->
  files (snd (executeHelperProgram h src w)) !! p = files w !! p.
Proof. apply executeHelperProgram_frame. Qed.


End MoreExecution.

(** ** Further properties of [evaluatePureFunctionAtCompileTime] *)

Section MoreEvaluation.

Import constant types ir walk.

Variable h : Host.

(** X8: A result that is not nil comes from one child that exited with status
    0: the literal holds all of what the child wrote to its standard
    output, which is not empty, the guard was off and a program had been
    generated. *)
Theorem success_means_clean_run fn args w n w' :
  evaluatePureFunctionAtCompileTime h fn args w = (Ret (Some n), w') ->
  os.Getenv w guardName = EmptyString /\
  (exists prog, generateHelperProgram h fn args = Ret prog /\
                prog <> EmptyString) /\
  exists c out err,
    spawned w' = spawned w ++ [(c, Exited 0 out err)] /\
    out <> EmptyString /\
    n = BasicLit (base_Pos w) (Types TSTRING) 1 (stringVal out).
Proof.
  intros He. apply evaluate_inv in He as (_ & _ & Hcases).
  destruct Hcases as [(_ & ? & _)|[(_ & _ & [[_ ?]|[_ ?]])|Hrun]]; try done.
  destruct Hrun as (Hg & src & c & o & Hgen & Hsrc & Hsp & _ & Hr).
  case_bool_decide as Hout; [done|]. injection Hr as ->.
  split; [done|]. split; [by exists src|].
  destruct o as [msg|code out err]; simpl in *; [done|].
  destruct (Z.eqb_spec code 0) as [->|]; [|done].
  by exists c, out, err.
Qed.

(** X9: An evaluation starts at most one child, and starts one only when the
    guard is off, a program was generated, the scratch directory was made
    and the source file written. *)
Theorem child_only_with_workspace fn args w :
  exists started,
    spawned (snd (evaluatePureFunctionAtCompileTime h fn args w))
    = spawned w ++ started /\
    (length started <= 1)%nat /\
    (started <> [] ->
     os.Getenv w guardName = EmptyString /\
     (exists prog, generateHelperProgram h fn args = Ret prog /\
                   prog <> EmptyString) /\
     workspaceReady h w).
Proof.
  unfold evaluatePureFunctionAtCompileTime.
  case_bool_decide as Hg.
  { exists []. cbn [snd]. rewrite app_nil_r.
    split; [done|split; [simpl; lia|done]]. }
  destruct (generateHelperProgram h fn args) as [prog|] eqn:Hgen.
  2:{ exists []. cbn [snd]. rewrite trace_spawned, app_nil_r.
      split; [done|split; [simpl; lia|done]]. }
  case_bool_decide as Hprog.
  { exists []. cbn [snd]. rewrite !trace_spawned, app_nil_r.
    split; [done|split; [simpl; lia|done]]. }
  set (w1 := trace h 1 _ (trace h 1 _ w)).
  assert (Hsp1 : spawned w1 = spawned w) by (subst w1; by rewrite !trace_spawned).
  assert (Hstarted : exists started,
             spawned (snd (executeHelperProgram h prog w1)) = spawned w ++ started /\
             (length started <= 1)%nat /\
             (started <> [] -> workspaceReady h w)).
  { destruct (workspace_cases h w1) as [Hno|[(d & Hd & Hw)|Hready]].
    - rewrite (executeHelperProgram_no_dir h prog w1 Hno). exists [].
      cbn [snd drawn spawned]. rewrite Hsp1, app_nil_r.
      split; [done|split; [simpl; lia|done]].
    - rewrite (executeHelperProgram_not_written h prog w1 d Hd Hw). exists [].
      cbn [snd set_files drawn spawned]. rewrite Hsp1, app_nil_r.
      split; [done|split; [simpl; lia|done]].
    - pose proof Hready as (d & Hd & Hw).
      rewrite (executeHelperProgram_ready h prog w1 d Hd Hw).
      cbn [snd spawned]. rewrite Hsp1. eexists. split; [reflexivity|].
      split; [simpl; lia|]. intros _. subst w1.
      by do 2 apply workspaceReady_untrace in Hready. }
  destruct Hstarted as (started & Hsp & Hlen & Hws).
  destruct (executeHelperProgram h prog w1) as [res w2]. cbn [snd] in Hsp.
  exists started.
  assert (Hall : started <> [] ->
                 os.Getenv w guardName = EmptyString /\
                 (exists prog0, Ret prog = Ret prog0 /\ prog0 <> EmptyString) /\
                 workspaceReady h w).
  { intros Hne. split; [done|]. split; [by exists prog | by apply Hws]. }
  case_bool_decide; cbn [snd]; rewrite !trace_spawned; done.
Qed.

End MoreEvaluation.

(** ** The environment of the child, again *)


Section ChildEnvironment.

Import constant types ir walk.

Lemma keyLen_GOROOT g : exec.keyLen ("GOROOT=" +:+ g) = Some 6%nat.
Proof. reflexivity. Qed.

Lemma lookupEnv_GOROOT g rest :
  os.lookupEnv (("GOROOT=" +:+ g) :: rest) "GOROOT" = Some g.
Proof.
  change (os.lookupEnv (("GOROOT=" +:+ g) :: rest) "GOROOT")
    with (Some (String.substring 0 (String.length ("GOROOT=" +:+ g)) g)).
  f_equal. apply substring_all. rewrite length_append. lia.
Qed.

Lemma dedupFromLast_keep kv i rest saw :
  exec.keyLen kv = Some i -> String.substring 0 i kv ∉ saw ->
  exec.dedupFromLast (kv :: rest) saw =
  kv :: exec.dedupFromLast rest (String.substring 0 i kv :: saw).
Proof.
  intros Hk Hn. cbn [exec.dedupFromLast]. rewrite Hk. cbv zeta.
  by rewrite bool_decide_eq_false_2.
Qed.

Variable h : Host.

(** X6: When the GOROOT of the build is known, the child reads it as its
    GOROOT, whatever GOROOT the environment of the compiler holds. *)
Theorem child_reads_GOROOT w child :
  GOROOT h <> EmptyString ->
  environ child = exec.dedupEnv (helperEnv h w) ->
  os.Getenv child "GOROOT" = GOROOT h.
Proof.
  intros Hroot Henv. unfold os.Getenv.
  rewrite bool_decide_eq_false_2 by discriminate. rewrite Henv.
  unfold helperEnv, exec.dedupEnv, os.Environ.
  rewrite (bool_decide_eq_true_2 _ Hroot), !rev_unit.
  rewrite (dedupFromLast_keep _ 19) by (done || apply not_elem_of_nil).
  rewrite (dedupFromLast_keep _ 6)
    by (apply keyLen_GOROOT ||
        (change (String.substring 0 6 ("GOROOT=" +:+ GOROOT h)) with "GOROOT";
         rewrite list_elem_of_singleton; discriminate)).
  change (String.substring 0 6 ("GOROOT=" +:+ GOROOT h)) with "GOROOT".
  simpl rev. rewrite <- app_assoc. rewrite lookupEnv_app_skip.
  - simpl app. by rewrite lookupEnv_GOROOT.
  - apply Forall_rev, dedupFromLast_notKey; [done | set_solver].
Qed.

End ChildEnvironment.

Lemma child_reads_GOROOT_witness :
  let w := {| environ := ["GOROOT=/opt/other"; "PATH=/usr/bin"];
              files := ∅; base_Pos := 0; printed := []; spawned := [];
              rand := 0 |} in
  let child := {| environ := exec.dedupEnv (walk.helperEnv (ex.host 0 "x") w);
                  files := ∅; base_Pos := 0; printed := []; spawned := [];
                  rand := 0 |} in
  GOROOT (ex.host 0 "x") <> EmptyString /\
  environ child = exec.dedupEnv (walk.helperEnv (ex.host 0 "x") w) /\
  os.Getenv w "GOROOT" = "/opt/other" /\
  os.Getenv child "GOROOT" = "/usr/local/go".
Proof.
  intros w child.
  assert (H1 : GOROOT (ex.host 0 "x") <> EmptyString) by discriminate.
  split; [exact H1|]. split; [reflexivity|]. split; [reflexivity|].
  exact (child_reads_GOROOT (ex.host 0 "x") w child H1 eq_refl).
Defined.

(** ** The diagnostics *)

Section Diagnostics.

Import constant types ir walk.

Variable h : Host.

Lemma trace_off n msg w : LowerM h <= n -> trace h n msg w = w.
Proof.
  intros Hm. unfold trace. destruct (Z.ltb_spec n (LowerM h)); [lia|done].
Qed.

Lemma executeHelperProgram_quiet src w :
  LowerM h <= 1 ->
  printed (snd (executeHelperProgram h src w)) = printed w.
Proof.
  intros Hm.
  assert (Hoff : (1 <? LowerM h) = false) by (apply Z.ltb_ge; lia).
  destruct (workspace_cases h w) as [Hno|[(d & Hd & Hw)|(d & Hd & Hw)]].
  - by rewrite (executeHelperProgram_no_dir h src w Hno).
  - by rewrite (executeHelperProgram_not_written h src w d Hd Hw).
  - rewrite (executeHelperProgram_ready h src w d Hd Hw).
    cbn [snd printed]. rewrite Hoff.
    destruct (fst _) as [msg|code out err]; [|destruct (code =? 0)];
      apply app_nil_r.
Qed.

(** X10: With no -m flag an evaluation prints nothing; with one, it prints one
    line when it replaces the call, naming the function and the quoted
    constant, and nothing when it falls back. *)
Theorem diagnostics_up_to_one_m fn args w :
  LowerM h <= 1 ->
  let run := evaluatePureFunctionAtCompileTime h fn args w in
  printed (snd run) =
  printed w ++ (if 0 <? LowerM h then successLine h fn (fst run) else []).
Proof.
  intros Hm run. subst run.
  assert (Hnone : forall r : Result (option Node),
             (r = Ret None \/ r = Panic) ->
             printed w ++ (if 0 <? LowerM h then successLine h fn r else [])
             = printed w).
  { intros r [->| ->]; destruct (0 <? LowerM h); apply app_nil_r. }
  unfold evaluatePureFunctionAtCompileTime.
  case_bool_decide as Hg; [cbn [fst snd]; rewrite Hnone; auto|].
  rewrite !(trace_off 1) by done.
  destruct (generateHelperProgram h fn args) as [prog|];
    [|cbn [fst snd]; rewrite Hnone; auto].
  case_bool_decide as Hprog; [cbn [fst snd]; rewrite Hnone; auto|].
  rewrite !(trace_off 1) by done.
  pose proof (executeHelperProgram_quiet prog w Hm) as Hq.
  destruct (executeHelperProgram h prog w) as [res w1]. cbn [snd] in Hq.
  case_bool_decide as Hres; cbn [fst snd].
  - rewrite (trace_off 1) by done. rewrite Hnone; auto.
  - unfold trace, NewString, SetType, SetTypecheck, successLine, MakeString.
    destruct (0 <? LowerM h); cbn [printed Printf]; rewrite Hq;
      [done | by rewrite app_nil_r].
Qed.

(** *** The diagnostics do not steer the evaluation *)

Lemma renderArgs_withLowerM m args : forall acc,
  renderArgs (withLowerM h m) args acc = renderArgs h args acc.
Proof.
  induction args as [|a rest IH]; intros acc; [done|]. simpl.
  destruct (Node_Val a) as [v|]; [|done].
  change (argExpr (withLowerM h m) v) with (argExpr h v).
  destruct (argExpr h v); [apply IH | done].
Qed.

Lemma generateHelperProgram_withLowerM m fn args :
  generateHelperProgram (withLowerM h m) fn args =
  generateHelperProgram h fn args.
Proof. unfold generateHelperProgram. by rewrite renderArgs_withLowerM. Qed.

Lemma scratchDir_agree m w1 w2 :
  sameInputs w1 w2 -> scratchDir (withLowerM h m) w2 = scratchDir h w1.
Proof.
  intros (He & Hf & _ & Hr).
  unfold scratchDir, os.MkdirTemp, os.TempDir, os.Getenv.
  rewrite He, Hf, Hr. cbn [tempRandom withLowerM].
  destruct (os.prefixAndSuffix _), (tempRandom h _ _); [|done].
  by destruct (files w2 !! _).
Qed.

(** Two runs of [executeHelperProgram], on worlds with the same inputs and
    under hosts that differ in the count of -m flags at most. *)
Lemma executeHelperProgram_agree m src w1 w2 :
  sameInputs w1 w2 ->
  let a := executeHelperProgram h src w1 in
  let b := executeHelperProgram (withLowerM h m) src w2 in
  fst a = fst b /\ sameInputs (snd a) (snd b) /\
  exists started, spawned (snd a) = spawned w1 ++ started /\
                  spawned (snd b) = spawned w2 ++ started.
Proof.
  intros Hsame a b. subst a b.
  pose proof (scratchDir_agree m w1 w2 Hsame) as Hdir.
  destruct Hsame as (He & Hf & Hp & Hr).
  destruct (workspace_cases h w1) as [Hno|[(d & Hd & Hw)|(d & Hd & Hw)]].
  - rewrite (executeHelperProgram_no_dir h src w1 Hno).
    rewrite (executeHelperProgram_no_dir _ src w2) by (by rewrite Hdir).
    split; [done|]. split; [unfold sameInputs; cbn; by rewrite Hr|].
    exists []. cbn. by rewrite !app_nil_r.
  - rewrite (executeHelperProgram_not_written h src w1 d Hd Hw).
    rewrite (executeHelperProgram_not_written _ src w2 d)
      by (rewrite ?Hdir, <- ?Hf; done).
    split; [done|]. split.
    + unfold sameInputs. cbn. by rewrite Hf, Hr.
    + exists []. cbn. by rewrite !app_nil_r.
  - rewrite (executeHelperProgram_ready h src w1 d Hd Hw).
    rewrite (executeHelperProgram_ready _ src w2 d)
      by (rewrite ?Hdir, <- ?Hf; done).
    assert (Hbin : goBinary (withLowerM h m)
                     (set_files w2 (<[filepath.Join [d; "main.go"]:=Regular src]>
                                      (<[d:=Dir]> (files w2))))
                   = goBinary h
                       (set_files w1 (<[filepath.Join [d; "main.go"]:=Regular src]>
                                        (<[d:=Dir]> (files w1))))).
    { unfold goBinary, os.Stat. cbn. by rewrite Hf. }
    assert (Henv : helperEnv (withLowerM h m) w2 = helperEnv h w1).
    { unfold helperEnv, os.Environ. cbn. by rewrite He. }
    rewrite Hbin, Henv. cbn [runChild withLowerM fst snd]. rewrite <- Hf.
    split; [done|]. split; [unfold sameInputs; cbn; by rewrite He, Hp, Hr|].
    eexists. split; reflexivity.
Qed.

Lemma trace_sameInputs n msg w : sameInputs w (trace h n msg w).
Proof.
  unfold sameInputs.
  by rewrite trace_environ, trace_files, trace_base_Pos, trace_rand.
Qed.

Lemma sameInputs_trans w1 w2 w3 :
  sameInputs w1 w2 -> sameInputs w2 w3 -> sameInputs w1 w3.
Proof.
  intros (? & ? & ? & ?) (? & ? & ? & ?). unfold sameInputs.
  split_and!; congruence.
Qed.

Lemma sameInputs_sym w1 w2 : sameInputs w1 w2 -> sameInputs w2 w1.
Proof.
  intros (? & ? & ? & ?). unfold sameInputs. split_and!; congruence.
Qed.


(** Two evaluations, on worlds with the same inputs and under hosts that
    differ in the count of -m flags at most. *)
Lemma evaluate_agree m fn args w1 w2 :
  sameInputs w1 w2 ->
  let a := evaluatePureFunctionAtCompileTime h fn args w1 in
  let b := evaluatePureFunctionAtCompileTime (withLowerM h m) fn args w2 in
  fst a = fst b /\ sameInputs (snd a) (snd b) /\
  exists started, spawned (snd a) = spawned w1 ++ started /\
                  spawned (snd b) = spawned w2 ++ started.
Proof.
  intros Hsame a b. subst a b.
  unfold evaluatePureFunctionAtCompileTime.
  rewrite generateHelperProgram_withLowerM.
  assert (Hg : os.Getenv w2 guardName = os.Getenv w1 guardName).
  { unfold os.Getenv. destruct Hsame as (-> & _). done. }
  rewrite Hg. case_bool_decide as Hguard.
  { cbn [fst snd]. split; [done|]. split; [done|].
    exists []. by rewrite !app_nil_r. }
  set (t1 := trace h 1 _ w1). set (t2 := trace (withLowerM h m) 1 _ w2).
  assert (Ht : sameInputs t1 t2).
  { subst t1 t2. eapply sameInputs_trans;
      [apply sameInputs_sym, trace_sameInputs|].
    eapply sameInputs_trans; [exact Hsame|]. unfold sameInputs, trace.
    destruct (1 <? LowerM (withLowerM h m)); done. }
  assert (Hs1 : spawned t1 = spawned w1) by (subst t1; apply trace_spawned).
  assert (Hs2 : spawned t2 = spawned w2).
  { subst t2. unfold trace. by destruct (1 <? _). }
  clearbody t1 t2.
  destruct (generateHelperProgram h fn args) as [prog|].
  2:{ cbn [fst snd]. split; [done|]. split; [done|].
      exists []. by rewrite Hs1, Hs2, !app_nil_r. }
  assert (Htr : forall n1 n2 msg1 msg2 u1 u2,
             sameInputs u1 u2 ->
             sameInputs (trace h n1 msg1 u1) (trace (withLowerM h m) n2 msg2 u2) /\
             spawned (trace h n1 msg1 u1) = spawned u1 /\
             spawned (trace (withLowerM h m) n2 msg2 u2) = spawned u2).
  { intros n1 n2 msg1 msg2 u1 u2 Hu. unfold trace.
    destruct (n1 <? LowerM h), (n2 <? LowerM (withLowerM h m)); done. }
  case_bool_decide as Hprog.
  { cbn [fst snd]. destruct (Htr 1 1 ("failed to generate helper program" +:+ nl)
                               ("failed to generate helper program" +:+ nl)
                               t1 t2 Ht) as (Hx & Hy & Hz).
    split; [done|]. split; [done|].
    exists []. by rewrite Hy, Hz, Hs1, Hs2, !app_nil_r. }
  match goal with
  | |- context [executeHelperProgram h prog (trace h 1 ?msg t1)] =>
      destruct (Htr 1 1 msg msg t1 t2 Ht) as (Hx & Hy & Hz);
      pose proof (executeHelperProgram_agree m prog _ _ Hx) as Hexec
  end.
  cbv zeta in Hexec.
  destruct (executeHelperProgram h prog _) as [res1 u1].
  destruct (executeHelperProgram (withLowerM h m) prog _) as [res2 u2].
  cbn [fst snd] in Hexec. destruct Hexec as (<- & Hu & started & Hsp1 & Hsp2).
  rewrite Hy, Hs1 in Hsp1. rewrite Hz, Hs2 in Hsp2.
  case_bool_decide as Hres; cbn [fst snd].
  - destruct (Htr 1 1 ("failed to execute helper program" +:+ nl)
                ("failed to execute helper program" +:+ nl) u1 u2 Hu)
      as (Hx' & Hy' & Hz').
    split; [done|]. split; [done|]. exists started. by rewrite Hy', Hz'.
  - match goal with
    | |- context [trace h 0 ?msg u1] =>
        match goal with
        | |- context [trace (withLowerM h m) 0 ?msg' u2] =>
            destruct (Htr 0 0 msg msg' u1 u2 Hu) as (Hx' & Hy' & Hz')
        end
    end.
    pose proof Hx' as (He' & Hf' & Hp' & Hr'). split.
    + by rewrite Hp'.
    + split; [done|]. exists started. by rewrite Hy', Hz'.
Qed.

(** X11: The count of -m flags changes what is printed and nothing else: the
    result, the file system left behind and the children started are the
    same under any count. *)
Theorem diagnostics_do_not_steer m fn args w :
  let a := evaluatePureFunctionAtCompileTime h fn args w in
  let b := evaluatePureFunctionAtCompileTime (withLowerM h m) fn args w in
  fst a = fst b /\ files (snd a) = files (snd b) /\
  environ (snd a) = environ (snd b) /\ spawned (snd a) = spawned (snd b).
Proof.
  intros a b.
  destruct (evaluate_agree m fn args w w) as (Hr & (He & Hf & _) & l & Ha & Hb);
    [done|].
  split; [done|]. split; [done|]. split; [done|].
  subst a b. by rewrite Ha, Hb.
Qed.

(** *** What an evaluation leaves behind *)

Lemma scratchDir_trace n msg w : scratchDir h (trace h n msg w) = scratchDir h w.
Proof. unfold scratchDir. apply MkdirTemp_trace. Qed.

(** X12: With a toolchain that leaves the file system alone, and nothing below
    the name of the scratch directory beforehand, an evaluation gives the
    file system back as it was, whichever way it ends; the environment and
    the position are as they were too. *)
Theorem evaluation_restores_files fn args w :
  (forall c fs, snd (runChild h c fs) = fs) ->
  (forall d p, scratchDir h w = Some d -> os.within d p = true ->
               files w !! p = None) ->
  let w' := snd (evaluatePureFunctionAtCompileTime h fn args w) in
  files w' = files w /\ environ w' = environ w /\ base_Pos w' = base_Pos w.
Proof.
  intros Hchild Hclean w'. subst w'. split.
  2:{ destruct (evaluatePureFunctionAtCompileTime h fn args w) as [r w'] eqn:He.
      apply evaluate_inv in He as (Henv & Hpos & _). done. }
  unfold evaluatePureFunctionAtCompileTime.
  case_bool_decide; [done|].
  destruct (generateHelperProgram h fn args) as [prog|];
    [|cbn [snd]; by rewrite trace_files].
  case_bool_decide; [cbn [snd]; by rewrite !trace_files|].
  match goal with
  | |- context [executeHelperProgram h prog ?u] =>
      pose proof (executeHelperProgram_restores h prog u Hchild) as Hrest
  end.
  rewrite !trace_files in Hrest.
  destruct (executeHelperProgram h prog _) as [res w1]. cbn [snd] in Hrest.
  assert (Hf : files w1 = files w).
  { apply Hrest. intros d p Hd Hp. rewrite !scratchDir_trace in Hd.
    by apply (Hclean d). }
  case_bool_decide; cbn [snd]; by rewrite !trace_files.
Qed.

End Diagnostics.

(** ** The no-op fold of strings.ToLower *)

Section ToLowerFold.

Import types ir.

(** The flags after the loop, whatever [hasUpper] was on entry: [isASCII]
    holds when no byte is 0x80 or more, and [hasUpper] then holds when it
    held on entry or some byte is one of A to Z. *)
Lemma scan_flags s : forall u,
  fst (tolower.scan s u) && negb (snd (tolower.scan s u))
  = negb u && allBytes lowerAsciiByte s.
Proof.
  induction s as [|c s IH]; intros u; simpl.
  - by rewrite andb_true_r.
  - unfold lowerAsciiByte. destruct (Z.leb_spec 0x80 (byte_of c)) as [Hc|Hc].
    + simpl. destruct (Z.ltb_spec (byte_of c) 0x80); [lia|].
      simpl. by rewrite andb_false_r.
    + rewrite IH. destruct (Z.ltb_spec (byte_of c) 0x80); [|lia].
      destruct u, ((65 <=? byte_of c) && (byte_of c <=? 90)); done.
Qed.

(** The loop of the fold, in terms of the bytes of the string. *)
Lemma scan_accepts s :
  (let '(isASCII, hasUpper) := tolower.scan s false in
   isASCII && negb hasUpper) = true
  <-> forall i c, String.get i s = Some c ->
                  byte_of c < 0x80 /\ ~ (0x41 <= byte_of c <= 0x5A).
Proof.
  pose proof (scan_flags s false) as Hs.
  destruct (tolower.scan s false) as [a u]. cbn [fst snd] in Hs.
  rewrite Hs. cbn [negb andb]. clear.
  induction s as [|c s IH]; simpl.
  - split; [intros _ i c Hget; by destruct i|done].
  - rewrite andb_true_iff, IH. unfold lowerAsciiByte. split.
    + intros [Hc Hall] [|i] c' Hget; simpl in Hget.
      * injection Hget as <-. apply andb_true_iff in Hc as [H1 H2].
        apply Z.ltb_lt in H1. apply negb_true_iff in H2.
        split; [done|]. intros [H3 H4].
        apply Z.leb_le in H3. apply Z.leb_le in H4.
        by rewrite H3, H4 in H2.
      * by apply (Hall i).
    + intros Hall. split.
      * destruct (Hall 0%nat c eq_refl) as [H1 H2].
        apply andb_true_iff. split; [by apply Z.ltb_lt|].
        apply negb_true_iff, andb_false_iff.
        destruct (Z.leb_spec 0x41 (byte_of c)); [|by left].
        destruct (Z.leb_spec (byte_of c) 0x5A); [|by right]. lia.
      * intros i c' Hget. by apply (Hall (S i)).
Qed.

(** X14: The loop of the fold accepts a string exactly when each of its bytes is
    below 0x80 and none is one of A to Z; the break at the first byte of
    0x80 or more, which leaves the bytes after it unread, loses nothing. *)
Theorem scan_accepts_iff s :
  (let '(isASCII, hasUpper) := tolower.scan s false in
   isASCII && negb hasUpper) = true
  <-> forall i c, String.get i s = Some c ->
                  byte_of c < 0x80 /\ ~ (0x41 <= byte_of c <= 0x5A).
Proof. apply scan_accepts. Qed.

Lemma lowerASCII_fixed s :
  allBytes lowerAsciiByte s = true -> lowerASCII s = s.
Proof.
  induction s as [|c s IH]; simpl; [done|].
  intros [Hc Hs]%andb_true_iff. rewrite (IH Hs). f_equal.
  unfold lowerAsciiByte in Hc. apply andb_true_iff in Hc as [_ Hc].
  unfold lowerByte. by apply negb_true_iff in Hc as ->.
Qed.

(** X15: The fold is sound: what replaces the call is the argument of the call
    itself, a string literal, and lower-casing the letters A to Z of its
    value gives that value back. *)
Theorem foldToLower_sound n r :
  tolower.foldToLower n = Some r ->
  exists pos tc fn s,
    n = CallExpr pos tc fn [r] /\
    Sym_Pkg_Path fn = "strings" /\ Sym_Name fn = "ToLower" /\
    Node_Op r = OLITERAL /\ Node_Val r = Some (constant.stringVal s) /\
    lowerASCII s = s.
Proof.
  destruct n as [| |pos tc fn args]; try done. simpl.
  destruct (bool_decide (Sym_Pkg_Path fn = "strings")) eqn:Hp; [|done].
  destruct (bool_decide (Sym_Name fn = "ToLower")) eqn:Hn; [|done].
  apply bool_decide_eq_true in Hp, Hn. cbn [andb].
  destruct args as [|arg [|? ?]]; try done.
  destruct (tolower.IsConst arg constant.String) eqn:Hc; [|done].
  apply andb_true_iff in Hc as [Hop _]. apply bool_decide_eq_true in Hop.
  destruct (Node_Val arg) as [v|] eqn:Hv; [|done]. destruct v as [|b|s|z|q|re im]; try done.
  pose proof (scan_flags s false) as Hs.
  destruct (tolower.scan s false) as [a u]. cbn [fst snd negb andb] in Hs.
  destruct (a && negb u) eqn:Hau; [|done].
  intros [= <-]. exists pos, tc, fn, s.
  repeat split; try done. by apply lowerASCII_fixed.
Qed.

(** X16: The fold leaves the call when the constant has an upper-case letter or
    a byte of 0x80 or more, also when the letter comes after such a
    byte. *)
Theorem foldToLower_leaves pos tc fn arg s i c :
  Node_Val arg = Some (constant.stringVal s) ->
  String.get i s = Some c ->
  0x80 <= byte_of c \/ 0x41 <= byte_of c <= 0x5A ->
  tolower.foldToLower (CallExpr pos tc fn [arg]) = None.
Proof.
  intros Hv Hget Hc. simpl.
  destruct (_ && _); [|done].
  destruct (tolower.IsConst arg constant.String); [|done].
  rewrite Hv.
  pose proof (proj1 (scan_accepts s)) as Hacc.
  destruct (tolower.scan s false) as [a u].
  destruct (a && negb u); [|done].
  destruct (Hacc eq_refl i c Hget) as [H1 H2]. lia.
Qed.

End ToLowerFold.

Lemma foldToLower_sound_witness :
  exists pos tc fn s,
    ir.CallExpr 7 0 ex.ToLower [ex.strLit "content-type"]
      = ir.CallExpr pos tc fn [ex.strLit "content-type"] /\
    ir.Sym_Pkg_Path fn = "strings" /\ ir.Sym_Name fn = "ToLower" /\
    ir.Node_Op (ex.strLit "content-type") = ir.OLITERAL /\
    ir.Node_Val (ex.strLit "content-type") = Some (constant.stringVal s) /\
    lowerASCII s = s.
Proof.
  apply (foldToLower_sound
           (ir.CallExpr 7 0 ex.ToLower [ex.strLit "content-type"])).
  reflexivity.
Defined.

Lemma foldToLower_leaves_witness :
  tolower.foldToLower
    (ir.CallExpr 7 0 ex.ToLower [ex.strLit ("caf" +:+ String (chr 0xC3) (String (chr 0xA9) "S"))])
  = None.
Proof.
  apply (foldToLower_leaves 7 0 ex.ToLower _
           ("caf" +:+ String (chr 0xC3) (String (chr 0xA9) "S")) 5%nat "S"%char).
  - reflexivity.
  - reflexivity.
  - right. vm_compute. split; discriminate.
Defined.

(** ** The pure functions of the demo *)

Section DemoArithmetic.

Variable bits : Z.
Hypothesis bits_pos : 0 < bits.

Lemma pow2_split : 2 ^ bits = 2 * 2 ^ (bits - 1).
Proof. rewrite <- Z.pow_succ_r by lia. f_equal. lia. Qed.

Lemma wrapInt_id z : inInt bits z -> wrapInt bits z = z.
Proof.
  unfold inInt, wrapInt. intros Hz. pose proof pow2_split as Hp.
  rewrite Z.mod_small; lia.
Qed.

Lemma wrapInt_plus z k : wrapInt bits (z + k * 2 ^ bits) = wrapInt bits z.
Proof.
  unfold wrapInt.
  replace (z + k * 2 ^ bits + 2 ^ (bits - 1))
    with (z + 2 ^ (bits - 1) + k * 2 ^ bits) by lia.
  by rewrite Z.mod_add by (apply Z.pow_nonzero; lia).
Qed.

Lemma wrapInt_eq z : exists k, wrapInt bits z = z + k * 2 ^ bits.
Proof.
  unfold wrapInt. assert (Hnz : 2 ^ bits <> 0) by (apply Z.pow_nonzero; lia).
  exists (- ((z + 2 ^ (bits - 1)) / 2 ^ bits)).
  pose proof (Z.div_mod (z + 2 ^ (bits - 1)) (2 ^ bits) Hnz). lia.
Qed.

Lemma quot_inInt a b :
  inInt bits a -> b <> 0 -> a <> - 2 ^ (bits - 1) \/ b <> -1 ->
  inInt bits (Z.quot a b).
Proof.
  unfold inInt. intros Ha Hb Hne.
  assert (Hpow : 0 < 2 ^ (bits - 1)) by (apply Z.pow_pos_nonneg; lia).
  generalize dependent (2 ^ (bits - 1)). intros m Ha Hne Hm.
  Z.to_euclidean_division_equations. nia.
Qed.

(** X17: Dividing a product by the factor it was multiplied by gives the other
    factor back, as long as the product did not wrap around and the factor
    is not 0. *)
Theorem divide_undoes_multiply a b :
  inInt bits a -> inInt bits (a * b) -> b <> 0 ->
  demo.divide bits (demo.multiply bits a b) b = a.
Proof.
  intros Ha Hab Hb. unfold demo.divide, demo.multiply.
  rewrite (wrapInt_id (a * b)) by done.
  destruct (Z.eqb_spec b 0); [done|].
  rewrite Z.quot_mul by done. by apply wrapInt_id.
Qed.

(** X18: Subtracting what was added gives the first operand back, also when the
    sum wrapped around. *)
Theorem subtract_undoes_add a b :
  inInt bits a -> demo.subtract bits (demo.add bits a b) b = a.
Proof.
  intros Ha. unfold demo.subtract, demo.add.
  destruct (wrapInt_eq (a + b)) as [k ->].
  replace (a + b + k * 2 ^ bits - b) with (a + k * 2 ^ bits) by lia.
  rewrite wrapInt_plus. by apply wrapInt_id.
Qed.

(** X19: The division of the demo: a divisor of 0 gives 0 and no panic; the
    most negative value divided by -1 wraps around to itself; any other
    division of ints is the quotient truncated toward zero, whose product
    with the divisor is within the divisor of the dividend. *)
Theorem divide_cases a b :
  inInt bits a -> inInt bits b ->
  (b = 0 -> demo.divide bits a b = 0) /\
  (a = - 2 ^ (bits - 1) -> b = -1 -> demo.divide bits a b = a) /\
  (b <> 0 -> a <> - 2 ^ (bits - 1) \/ b <> -1 ->
   demo.divide bits a b = Z.quot a b /\
   Z.abs (a - demo.divide bits a b * b) < Z.abs b).
Proof.
  intros Ha Hb. unfold demo.divide. split; [|split].
  - by intros ->.
  - intros -> ->. simpl (_ =? _).
    replace (Z.quot (- 2 ^ (bits - 1)) (-1)) with (2 ^ (bits - 1)).
    2:{ generalize (2 ^ (bits - 1)). intros m.
        Z.to_euclidean_division_equations. nia. }
    replace (2 ^ (bits - 1)) with (- 2 ^ (bits - 1) + 1 * 2 ^ bits) at 1
      by (rewrite pow2_split; lia).
    rewrite wrapInt_plus. apply wrapInt_id.
    unfold inInt. pose proof (Z.pow_pos_nonneg 2 (bits - 1)). lia.
  - intros Hb0 Hne. destruct (Z.eqb_spec b 0); [done|].
    rewrite wrapInt_id by (by apply quot_inInt). split; [done|].
    Z.to_euclidean_division_equations. nia.
Qed.

End DemoArithmetic.

Lemma divide_undoes_multiply_witness :
  demo.divide 64 (demo.multiply 64 (- 2 ^ 62) 2) 2 = - 2 ^ 62.
Proof.
  apply (divide_undoes_multiply 64); [lia| | |lia]; unfold inInt; simpl; lia.
Defined.

Lemma subtract_undoes_add_witness :
  demo.subtract 64 (demo.add 64 (2 ^ 63 - 1) 1) 1 = 2 ^ 63 - 1.
Proof.
  apply (subtract_undoes_add 64); [lia|]. unfold inInt. simpl. lia.
Defined.

Lemma divide_cases_witness :
  (-1 = 0 -> demo.divide 64 (- 2 ^ 63) (-1) = 0) /\
  (- 2 ^ 63 = - 2 ^ (64 - 1) -> -1 = -1 ->
   demo.divide 64 (- 2 ^ 63) (-1) = - 2 ^ 63) /\
  (-1 <> 0 -> - 2 ^ 63 <> - 2 ^ (64 - 1) \/ -1 <> -1 ->
   demo.divide 64 (- 2 ^ 63) (-1) = Z.quot (- 2 ^ 63) (-1) /\
   Z.abs (- 2 ^ 63 - demo.divide 64 (- 2 ^ 63) (-1) * -1) < Z.abs (-1)).
Proof.
  apply (divide_cases 64); [lia| |]; unfold inInt; simpl; lia.
Defined.

(** ** The call site *)

Section MoreCallSite.

Import constant types ir walk.

Variable h : Host.

(** X13: At the call site the evaluator never panics: the arguments that pass
    [allArgsConstant] all have a value that [generateHelperProgram]
    renders.  A call is replaced only if its function is marked pure and
    its arguments are all literals, and what replaces it is a string
    literal with a value that is not empty, at the base position, marked
    as type-checked. *)
Theorem call_site_never_panics n w :
  exists r,
    fst (walkCallPure h n w) = Ret r /\
    forall n', r = Some n' ->
      exists pos tc fn args out,
        n = CallExpr pos tc fn args /\ Pragma_Pure fn = true /\
        Forall (fun a => Node_Op a = OLITERAL) args /\
        out <> EmptyString /\
        n' = BasicLit (base_Pos w) (Types TSTRING) 1 (stringVal out).
Proof.
  destruct n as [| |pos tc fn args]; try (by exists None).
  simpl. destruct (Pragma_Pure fn) eqn:Hpure; [|by exists None].
  destruct (allArgsConstant args (Params fn)) eqn:Hel; [|by exists None].
  destruct (eligible_program h fn args Hel) as (prog & Hgen & Hprog).
  destruct (evaluatePureFunctionAtCompileTime h fn args w) as [r w'] eqn:He.
  apply evaluate_inv in He as (_ & _ & Hcases). cbn [fst].
  destruct Hcases as [(_ & -> & _)|[(_ & _ & [[? _]|[_ ->]])|Hrun]];
    try (by exists None); [congruence|].
  destruct Hrun as (_ & src & c & o & _ & _ & _ & _ & ->).
  case_bool_decide as Hout; [by exists None|].
  eexists. split; [done|]. intros n' [= <-].
  exists pos, tc, fn, args, (capturedOutput o).
  repeat split; try done.
  apply allArgsConstant_eligible in Hel. clear -Hel.
  induction Hel as [|a p args' params' (k & (Hop & _) & _) _ IH];
    constructor; done.
Qed.

End MoreCallSite.

(** ** Instances *)

Section MoreInstances.

Import constant types ir walk.

Lemma generateHelperProgram_on_literals_witness :
  let args := [ex.intLit 10; ex.intLit 20] in
  Forall (fun a => Node_Op a = OLITERAL) args /\
  (generateHelperProgram (quietHost "30") ex.addPure args = Ret EmptyString <->
   Exists unsupportedLiteral args) /\
  (~ Exists unsupportedLiteral args ->
   exists exprs,
     Forall2 (rendersAs (quietHost "30")) args exprs /\
     generateHelperProgram (quietHost "30") ex.addPure args =
     Ret (programText (Sym_Pkg_Path ex.addPure) (Sym_Name ex.addPure) exprs)).
Proof.
  intros args.
  assert (Hlit : Forall (fun a => Node_Op a = OLITERAL) args)
    by (repeat constructor).
  split; [exact Hlit|].
  exact (generateHelperProgram_on_literals (quietHost "30") ex.addPure args
           Hlit).
Defined.

Lemma ex_quiet_scratchDir out :
  scratchDir (quietHost out) ex.world = Some ex.scratch.
Proof. vm_compute. reflexivity. Qed.

Lemma toolchain_invocation_witness :
  scratchDir (quietHost "hello") ex.world = Some ex.scratch /\
  exists bin o,
    (bin = "go" \/
     (GOROOT (quietHost "hello") <> EmptyString /\
      bin = filepath.Join [GOROOT (quietHost "hello"); "bin"; "go"])) /\
    spawned (snd (executeHelperProgram (quietHost "hello") "package main"
                    ex.world)) =
      spawned ex.world ++
        [({| Cmd_Path := bin;
             Cmd_Args := [bin; "run"; filepath.Join [ex.scratch; "main.go"]];
             Cmd_Env := helperEnv (quietHost "hello") ex.world |}, o)] /\
    o = fst (runChild (quietHost "hello")
               {| Cmd_Path := bin;
                  Cmd_Args := [bin; "run"; filepath.Join [ex.scratch; "main.go"]];
                  Cmd_Env := exec.dedupEnv (helperEnv (quietHost "hello") ex.world) |}
               (<[filepath.Join [ex.scratch; "main.go"] := Regular "package main"]>
                  (<[ex.scratch := Dir]> (files ex.world)))) /\
    fst (executeHelperProgram (quietHost "hello") "package main" ex.world)
    = capturedOutput o.
Proof.
  split; [apply ex_quiet_scratchDir|].
  exact (toolchain_invocation (quietHost "hello") "package main" ex.world
           ex.scratch (ex_quiet_scratchDir "hello") eq_refl).
Defined.

Lemma toolchain_choice_witness :
  let hst := quietHost "hello" in
  let bin := filepath.Join [GOROOT hst; "bin"; "go"] in
  let c := {| Cmd_Path := bin;
              Cmd_Args := [bin; "run"; filepath.Join [ex.scratch; "main.go"]];
              Cmd_Env := helperEnv hst ex.world |} in
  let o := Exited 0 "hello" EmptyString in
  ((c, o) ∈ spawned (snd (executeHelperProgram hst "package main" ex.world))) /\
  ((c, o) ∉ spawned ex.world) /\
  (GOROOT hst = EmptyString -> Cmd_Path c = "go") /\
  (GOROOT hst <> EmptyString ->
   is_Some (files ex.world !! filepath.Join [GOROOT hst; "bin"; "go"]) ->
   Cmd_Path c = filepath.Join [GOROOT hst; "bin"; "go"]).
Proof.
  intros hst bin c o.
  assert (Hin : (c, o) ∈ spawned (snd (executeHelperProgram hst "package main"
                                         ex.world))).
  { replace (spawned (snd (executeHelperProgram hst "package main" ex.world)))
      with [(c, o)] by (vm_compute; reflexivity).
    apply list_elem_of_here. }
  assert (Hnew : (c, o) ∉ spawned ex.world) by apply not_elem_of_nil.
  split; [exact Hin|]. split; [exact Hnew|].
  exact (toolchain_choice hst "package main" ex.world c o Hin Hnew).
Defined.

Lemma files_outside_scratch_kept_witness :
  let hst := quietHost "hello" in
  let p := "/usr/local/go/bin/go" in
  scratchDir hst ex.world = Some ex.scratch /\
  os.within ex.scratch p = false /\
  (forall c fs, snd (runChild hst c fs) !! p = fs !! p) /\
  files (snd (executeHelperProgram hst "package main" ex.world)) !! p
  = files ex.world !! p.
Proof.
  intros hst p.
  assert (Hin : os.within ex.scratch p = false) by (vm_compute; reflexivity).
  assert (Hchild : forall c fs, snd (runChild hst c fs) !! p = fs !! p)
    by reflexivity.
  split; [apply ex_quiet_scratchDir|]. split; [exact Hin|].
  split; [exact Hchild|].
  exact (files_outside_scratch_kept hst "package main" ex.world ex.scratch p
           (ex_quiet_scratchDir "hello") Hin Hchild).
Defined.

Lemma success_means_clean_run_witness :
  let hst := quietHost "hello" in
  let run := evaluatePureFunctionAtCompileTime hst ex.ToLower
               [ex.strLit "HELLO"] ex.world in
  let n := BasicLit 12 (Types TSTRING) 1 (stringVal "hello") in
  run = (Ret (Some n), snd run) /\
  os.Getenv ex.world guardName = EmptyString /\
  (exists prog, generateHelperProgram hst ex.ToLower [ex.strLit "HELLO"]
                = Ret prog /\ prog <> EmptyString) /\
  exists c out err,
    spawned (snd run) = spawned ex.world ++ [(c, Exited 0 out err)] /\
    out <> EmptyString /\
    n = BasicLit (base_Pos ex.world) (Types TSTRING) 1 (stringVal out).
Proof.
  intros hst run n.
  assert (Hrun : run = (Ret (Some n), snd run)) by (vm_compute; reflexivity).
  split; [exact Hrun|].
  exact (success_means_clean_run hst ex.ToLower [ex.strLit "HELLO"] ex.world
           n (snd run) Hrun).
Defined.

Lemma diagnostics_up_to_one_m_witness :
  let hst := quietHost "hello" in
  let run := evaluatePureFunctionAtCompileTime hst ex.ToLower
               [ex.strLit "HELLO"] ex.world in
  LowerM hst <= 1 /\
  printed (snd run) =
  printed ex.world ++
    (if 0 <? LowerM hst then successLine hst ex.ToLower (fst run) else []).
Proof.
  intros hst run.
  assert (Hm : LowerM hst <= 1) by (simpl; lia).
  split; [exact Hm|].
  exact (diagnostics_up_to_one_m hst ex.ToLower [ex.strLit "HELLO"] ex.world
           Hm).
Defined.

Lemma ex_scratch_clean d p :
  scratchDir (quietHost "hello") ex.world = Some d ->
  os.within d p = true -> files ex.world !! p = None.
Proof.
  rewrite ex_quiet_scratchDir. intros [= <-] Hp.
  destruct (decide (p = "/usr/local/go/bin/go")) as [->|Hne].
  - vm_compute in Hp. discriminate.
  - unfold ex.world. cbn [files].
    rewrite lookup_insert_ne by done. apply lookup_empty.
Qed.

Lemma evaluation_restores_files_witness :
  let hst := quietHost "hello" in
  let w' := snd (evaluatePureFunctionAtCompileTime hst ex.ToLower
                   [ex.strLit "HELLO"] ex.world) in
  (forall c fs, snd (runChild hst c fs) = fs) /\
  (forall d p, scratchDir hst ex.world = Some d -> os.within d p = true ->
               files ex.world !! p = None) /\
  files w' = files ex.world /\ environ w' = environ ex.world /\
  base_Pos w' = base_Pos ex.world.
Proof.
  intros hst w'.
  assert (Hchild : forall c fs, snd (runChild hst c fs) = fs) by reflexivity.
  split; [exact Hchild|]. split; [exact ex_scratch_clean|].
  exact (evaluation_restores_files hst ex.ToLower [ex.strLit "HELLO"] ex.world
           Hchild ex_scratch_clean).
Defined.

End MoreInstances.
